(** * ReFrame test statistics ([reframe/frontend/statistics.py])

    A shallow embedding of the [TestStats] class: the run-indexed store of
    finished tasks ([add_task], [tasks], [failures], [num_cases]) and the
    report generators built on it ([retry_report], [json], [failure_report],
    [failure_stats], [performance_report]).

    Conventions of the embedding:
    - Python exceptions are values of [Exc]; a method that may raise returns
      a [result], and statements are sequenced with the monadic bind.
    - [rt.runtime().current_run] is process-wide state that the class only
      reads: every method that reads it takes it as the explicit argument
      [current_run].
    - Python [int] is [Z]; [str] is [string] (compared character by
      character, as Python compares code points); [None]-able attributes
      are [option]s; insertion-ordered [dict]s whose order is observed are
      association lists, the one whose keys are sorted before use is a
      [gmap].
    - [json_report] only writes the value of [json] to a file; it is not
      part of the model. *)

From Stdlib Require Import ZArith String Ascii List Sorted Lia.
From stdpp Require Import base option list strings gmap sorting pretty.

Local Open Scope string_scope.
Local Open Scope Z_scope.
Local Open Scope list_scope.

(** ** Exceptions and fallible computations *)

Inductive Exc : Type :=
  | IndexError
  | AttributeError (attr : string)
  | StatisticsError (msg : string)
  | FormatError (msg : string).

Inductive result (A : Type) : Type :=
  | Ok (a : A)
  | Raise (e : Exc).
Arguments Ok {A} a.
Arguments Raise {A} e.

#[global] Instance result_ret : MRet result := fun A a => Ok a.
#[global] Instance result_bind : MBind result := fun A B f m =>
  match m with
  | Ok a => f a
  | Raise e => Raise e
  end.

Definition raises {A} (m : result A) : bool :=
  match m with
  | Ok _ => false
  | Raise _ => true
  end.

(** ** Python values and string helpers *)

(** The dynamically typed values that reach a ["%s"] conversion.  A float
    carries its printed form: floating-point printing is outside the model. *)
Inductive PyVal : Type :=
  | PyNone
  | PyInt (z : Z)
  | PyStr (s : string)
  | PyFloat (repr : string).

(** [str(v)], the conversion applied by ["%s" % v]. *)
Definition py_str (v : PyVal) : string :=
  match v with
  | PyNone => "None"
  | PyInt z => pretty z
  | PyStr s => s
  | PyFloat r => r
  end.

(** [str(o)] of an attribute that is a string or [None]. *)
Definition str_opt (o : option string) : string :=
  match o with
  | Some s => s
  | None => "None"
  end.

(** The line feed used by ['\n'.join]. *)
Definition nl : string := String (ascii_of_nat 10) EmptyString.

(** [sep.join(l)] *)
Fixpoint join (sep : string) (l : list string) : string :=
  match l with
  | [] => ""
  | [x] => x
  | x :: rest => x +:+ sep +:+ join sep rest
  end.

(** [n * c] for a one-character string [c]. *)
Fixpoint replicate_char (n : nat) (c : ascii) : string :=
  match n with
  | O => ""
  | S n' => String c (replicate_char n' c)
  end.

(** [l[i]]: Python list indexing, negative indices count from the end. *)
Definition norm_index (len : nat) (i : Z) : Z :=
  if i <? 0 then i + Z.of_nat len else i.

Definition py_index {A} (l : list A) (i : Z) : result A :=
  let j := norm_index (length l) i in
  if j <? 0 then Raise IndexError
  else match l !! Z.to_nat j with
       | Some x => Ok x
       | None => Raise IndexError
       end.

(** ** The data read from a task *)

Record Scheduler : Type := { registered_name : string }.

Record Partition : Type := {
  fullname : string;
  scheduler : Scheduler
}.

(** An environment: its [name] attribute and the text of [str(environ)]. *)
Record Environment : Type := {
  environ_name : string;
  environ_str : string
}.

Record Job : Type := {
  jobid : PyVal;
  nodelist : option (list string)
}.

(** [sys.exc_info()] of the failure: exception type, value and traceback. *)
Record ExcInfo : Type := {
  exc_type : string;
  exc_value : string;
  exc_traceback : list string
}.

(** The attributes of a regression check that the statistics read.  [info]
    is the text returned by [check.info()]; [stdout], [stderr],
    [build_stdout] and [build_stderr] are the values of the deferred
    expressions, i.e. what [.evaluate()] returns; [perfvalues] is the
    dictionary in insertion order, each value being the reference tuple. *)
Record RegressionCheck : Type := {
  name : string;
  descr : string;
  info : string;
  current_partition : option Partition;
  current_environ : option Environment;
  tags : list string;
  maintainers : list string;
  job : option Job;
  _build_job : option Job;
  stdout : string;
  stderr : string;
  build_stdout : string;
  build_stderr : string;
  stagedir : option string;
  outputdir : option string;
  perfvalues : list (string * list PyVal);
  num_tasks : Z
}.

Record Task : Type := {
  check : RegressionCheck;
  failed : bool;
  exc_info : option ExcInfo;
  failed_stage : string
}.

(** ** The store *)

(** [self._alltasks]: tasks per run, [[run0_tasks; run1_tasks; ...]]. *)
Record TestStats : Type := { _alltasks : list (list Task) }.

(** [__init__] *)
Definition init : TestStats := {| _alltasks := [[]] |}.

(** [add_task].  The append of the empty run and the indexing are one
    transaction in the model: when the index is out of range no run was
    appended before the [IndexError] (the append happens only for
    [current_run = len], which is then in range). *)
Definition add_task (current_run : Z) (self : TestStats) (task : Task)
  : result TestStats :=
  let alltasks :=
    if current_run =? Z.of_nat (length (_alltasks self))
    then _alltasks self ++ [[]]
    else _alltasks self in
  run ← py_index alltasks current_run;
  Ok {| _alltasks :=
          <[Z.to_nat (norm_index (length alltasks) current_run) := run ++ [task]]>
            alltasks |}.

(** [tasks(run=-1)] *)
Definition tasks (self : TestStats) (run : Z) : result (list Task) :=
  match py_index (_alltasks self) run with
  | Ok r => Ok r
  | Raise IndexError => Raise (StatisticsError ("no such run: " +:+ pretty run))
  | Raise e => Raise e
  end.

(** [failures(run=-1)] *)
Definition failures (self : TestStats) (run : Z) : result (list Task) :=
  ts ← tasks self run;
  Ok (List.filter failed ts).

(** [num_cases(run=-1)] *)
Definition num_cases (self : TestStats) (run : Z) : result Z :=
  ts ← tasks self run;
  Ok (Z.of_nat (length ts)).

(** ** Retry report *)

Definition line_width : nat := 78.

(** The key built in the loop body of [retry_report]:
    ['%s:%s:%s' % (t.check.name, partition_name, environ_name)]. *)
Definition retry_key (t : Task) : string :=
  let partition_name :=
    match current_partition (check t) with
    | Some p => fullname p
    | None => ""
    end in
  let environ_name :=
    match current_environ (check t) with
    | Some e => environ_name e
    | None => ""
    end in
  name (check t) +:+ ":" +:+ partition_name +:+ ":" +:+ environ_name.

(** The message stored under the key. *)
Definition retry_message (t : Task) (run : Z) : string :=
  "  * Test " +:+ info (check t) +:+ " was retried " +:+ pretty run +:+
  " time(s) and " +:+ (if failed t then "failed" else "passed") +:+ ".".

(** [for t in self.tasks(run): ... messages[key] = ...] *)
Definition retry_tasks_loop (run : Z) (ts : list Task)
    (messages : gmap string string) : gmap string string :=
  foldl (fun m t => <[retry_key t := retry_message t run]> m) messages ts.

(** [for run in range(1, len(self._alltasks)): ...] over the remaining
    values of [run]. *)
Fixpoint retry_runs_loop (self : TestStats) (runs : list nat)
    (messages : gmap string string) : result (gmap string string) :=
  match runs with
  | [] => Ok messages
  | run :: rest =>
      ts ← tasks self (Z.of_nat run);
      retry_runs_loop self rest (retry_tasks_loop (Z.of_nat run) ts messages)
  end.

(** [sorted(messages.keys())]: the keys of a dictionary are pairwise
    distinct, so the sorted list does not depend on the sorting algorithm
    nor on the order in which the dictionary lists its keys. *)
Definition sorted_keys (messages : gmap string string) : list string :=
  merge_sort String.le (map fst (map_to_list messages)).

Definition retry_banner : list string :=
  [replicate_char line_width "="; "SUMMARY OF RETRIES";
   replicate_char line_width "-"].

Definition retry_report (current_run : Z) (self : TestStats) : result string :=
  if current_run =? 0 then Ok ""
  else
    let report := retry_banner in
    messages ← retry_runs_loop self
                 (seq 1 (length (_alltasks self) - 1)) ∅;
    let report :=
      report ++ map (fun key => messages !!! key) (sorted_keys messages) in
    Ok (join nl report).

(** ** Projection to flat records ([json]) *)

(** One dictionary built by [json]; every key is always present, [None]
    marks an absent value. *)
Record Entry : Type := {
  entry_testname : string;
  entry_description : string;
  entry_system : option string;
  entry_environment : option string;
  entry_tags : list string;
  entry_maintainers : list string;
  entry_scheduler : option string;
  entry_jobid : PyVal;
  entry_nodelist : list string;
  entry_job_stdout : option string;
  entry_job_stderr : option string;
  entry_build_stdout : option string;
  entry_build_stderr : option string;
  entry_failing_reason : option string;
  entry_failing_phase : option string;
  entry_outputdir : option string;
  entry_stagedir : option string;
  entry_result : string;
  entry_run_no : Z
}.

(** Attribute access [o.attr] on a value that may be [None]. *)
Definition getattr {A} (attr : string) (o : option A) : result A :=
  match o with
  | Some a => Ok a
  | None => Raise (AttributeError attr)
  end.

Section Reports.

(** [reframe.core.exceptions.format_exception], imported by the module: it
    renders the failure metadata of a task and, like any call, may raise. *)
Variable format_exception : ExcInfo → result string.

(** The body of the inner loop of [json]: the entry of task [t] of run
    [run_no]. *)
Definition json_entry (run_no : nat) (t : Task) : result Entry :=
  let check := check t in
  let partition := current_partition check in
  let partfullname := fullname <$> partition in
  let environ_name := environ_name <$> current_environ check in
  (* if check.job: ... *)
  job_fields ←
    match job check with
    | Some j =>
        p ← getattr "scheduler" partition;
        Ok (Some (registered_name (scheduler p)), jobid j,
            default [] (nodelist j), Some (stdout check), Some (stderr check))
    | None => Ok (None, PyNone, [], None, None)
    end;
  let '(sched, jid, nodes, job_out, job_err) := job_fields in
  (* if check._build_job: ... *)
  let '(build_out, build_err) :=
    match _build_job check with
    | Some _ => (Some (build_stdout check), Some (build_stderr check))
    | None => (None, None)
    end in
  (* if t.failed: ... else: ... *)
  outcome ←
    (if failed t then
       match exc_info t with
       | Some ei =>
           reason ← format_exception ei;
           Ok ("fail", Some reason, Some (failed_stage t), None, stagedir check)
       | None => Ok ("fail", None, None, None, None)
       end
     else Ok ("success", None, None, outputdir check, None));
  let '(res, reason, phase, outdir, stgdir) := outcome in
  Ok {| entry_testname := name check;
        entry_description := descr check;
        entry_system := partfullname;
        entry_environment := environ_name;
        entry_tags := tags check;
        entry_maintainers := maintainers check;
        entry_scheduler := sched;
        entry_jobid := jid;
        entry_nodelist := nodes;
        entry_job_stdout := job_out;
        entry_job_stderr := job_err;
        entry_build_stdout := build_out;
        entry_build_stderr := build_err;
        entry_failing_reason := reason;
        entry_failing_phase := phase;
        entry_outputdir := outdir;
        entry_stagedir := stgdir;
        entry_result := res;
        entry_run_no := Z.of_nat run_no |}.

(** [for t in run: ... records.append(entry)] *)
Fixpoint json_run (run_no : nat) (run : list Task) (records : list Entry)
  : result (list Entry) :=
  match run with
  | [] => Ok records
  | t :: rest =>
      entry ← json_entry run_no t;
      json_run run_no rest (records ++ [entry])
  end.

(** [for run_no, run in enumerate(self._alltasks): ...], the enumeration
    counter starting at [run_no]. *)
Fixpoint json_runs (run_no : nat) (runs : list (list Task))
    (records : list Entry) : result (list Entry) :=
  match runs with
  | [] => Ok records
  | run :: rest =>
      records' ← json_run run_no run records;
      json_runs (S run_no) rest records'
  end.

Definition json (current_run : Z) (self : TestStats) : result (list Entry) :=
  json_runs 0 (_alltasks self) [].

(** ** Failure report *)

(** [repr(s)] of a string, as used by [str] of a list of strings: quoted
    with ['], or with the double quote when [s] contains a ['] and no double
    quote; the quote, the backslash and the characters that are not
    printable are escaped: the control characters below 32, 127, and, among
    the characters above 127 (a character being its code point), 128 to 160
    and 173; the other characters up to 255 are printable and kept. *)
Definition dquote : ascii := ascii_of_nat 34.
Definition squote : ascii := ascii_of_nat 39.
Definition backslash : ascii := ascii_of_nat 92.

Fixpoint string_mem (c : ascii) (s : string) : bool :=
  match s with
  | EmptyString => false
  | String c' s' => Ascii.eqb c c' || string_mem c s'
  end.

Definition hex_digit (n : nat) : ascii :=
  match String.get n "0123456789abcdef" with
  | Some c => c
  | None => "0"%char
  end.

Definition repr_char (quote c : ascii) : string :=
  let n := nat_of_ascii c in
  if Ascii.eqb c quote || Ascii.eqb c backslash then String backslash (String c "")
  else if Nat.eqb n 9 then String backslash "t"
  else if Nat.eqb n 10 then String backslash "n"
  else if Nat.eqb n 13 then String backslash "r"
  else if Nat.ltb n 32 || Nat.eqb n 127
          || (Nat.leb 128 n && Nat.leb n 160) || Nat.eqb n 173 then
    String backslash
      (String "x" (String (hex_digit (Nat.div n 16))
                          (String (hex_digit (Nat.modulo n 16)) "")))
  else String c "".

Fixpoint repr_chars (quote : ascii) (s : string) : string :=
  match s with
  | EmptyString => ""
  | String c s' => repr_char quote c +:+ repr_chars quote s'
  end.

Definition py_repr (s : string) : string :=
  let quote :=
    if string_mem squote s && negb (string_mem dquote s) then dquote
    else squote in
  String quote (repr_chars quote s +:+ String quote "").

(** [str(l)] of a list of strings. *)
Definition str_list (l : list string) : string :=
  "[" +:+ join ", " (map py_repr l) +:+ "]".

(** The lines that one iteration of the loop of [failure_report] appends. *)
Definition failure_report_entry (last_run : Z) (r : Entry) : list string :=
  if String.eqb (entry_result r) "success" || negb (entry_run_no r =? last_run)
  then []
  else
    let retry_info :=
      if 0 <? last_run
      then "(for the last of " +:+ pretty last_run +:+ " retries)"
      else "" in
    let job_type :=
      match entry_scheduler r with
      | Some s => if String.eqb s "local" then "local" else "batch job"
      | None => "batch job"
      end in
    let jobid := entry_jobid r in
    [ replicate_char line_width "-";
      "FAILURE INFO for " +:+ entry_testname r +:+ " " +:+ retry_info;
      "  * Test Description: " +:+ entry_description r;
      "  * System partition: " +:+ str_opt (entry_system r);
      "  * Environment: " +:+ str_opt (entry_environment r);
      "  * Stage directory: " +:+ str_opt (entry_stagedir r);
      "  * Node list: " +:+
        (match entry_nodelist r with
         | [] => "None"
         | _ :: _ => join "," (entry_nodelist r)
         end);
      "  * Job type: " +:+ job_type +:+ " (id=" +:+ py_str jobid +:+ ")";
      "  * Maintainers: " +:+ str_list (entry_maintainers r);
      "  * Failing phase: " +:+ str_opt (entry_failing_phase r);
      "  * Rerun with '-n " +:+ entry_testname r +:+ " -p " +:+
        str_opt (entry_environment r) +:+ " --system " +:+
        str_opt (entry_system r) +:+ "'";
      "  * Reason: " +:+ str_opt (entry_failing_reason r);
      match entry_failing_phase r with
      | Some ph =>
          if String.eqb ph "sanity" then "Sanity check failure"
          else if String.eqb ph "performance" then "Performance check failure"
          else "Unknown error."
      | None => "Unknown error."
      end ].

Definition failure_report (current_run : Z) (self : TestStats) : result string :=
  let report := [replicate_char line_width "="; "SUMMARY OF FAILURES"] in
  let last_run := current_run in
  records ← json current_run self;
  let report :=
    foldl (fun rep r => rep ++ failure_report_entry last_run r) report records in
  let report := report ++ [replicate_char line_width "-"] in
  Ok (join nl report).

End Reports.

(** ** Failure statistics *)

(** [f'[{check.name}, {environ_name}, {partfullname}]'] *)
Definition failure_label (tf : Task) : string :=
  let check := check tf in
  let partfullname :=
    match current_partition check with
    | Some p => fullname p
    | None => "None"
    end in
  let environ_name :=
    match current_environ check with
    | Some e => environ_name e
    | None => "None"
    end in
  "[" +:+ name check +:+ ", " +:+ environ_name +:+ ", " +:+ partfullname +:+ "]".

(** [if stage not in failures: failures[stage] = []] followed by
    [failures[stage].append(f)], on the dictionary in insertion order. *)
Fixpoint failures_append (stage f : string) (failures : list (string * list string))
  : list (string * list string) :=
  match failures with
  | [] => [(stage, [f])]
  | (p, l) :: rest =>
      if String.eqb p stage then (p, l ++ [f]) :: rest
      else (p, l) :: failures_append stage f rest
  end.

(** [format(s, '<w')]: pad on the right to width [w], never truncate. *)
Definition ljust (w : nat) (s : string) : string :=
  s +:+ replicate_char (w - String.length s) " ".

(** ["{:<13} {:<5} {}".format(a, b, c)] *)
Definition row_format (a b c : string) : string :=
  ljust 13 a +:+ " " +:+ ljust 5 b +:+ " " +:+ c.

(** The rows of one stage: [l[0]] on the first row, [l[1:]] below it. *)
Definition stats_rows (p : string) (l : list string) : result (list string) :=
  first ← py_index l 0;
  Ok (row_format p (pretty (Z.of_nat (length l))) first
      :: map (fun f => row_format "" "" f) (drop 1 l)).

(** [for p, l in failures.items(): ...] *)
Fixpoint stats_items (items : list (string * list string)) (stats_body : list string)
  : result (list string) :=
  match items with
  | [] => Ok stats_body
  | (p, l) :: rest =>
      rows ← stats_rows p l;
      stats_items rest (stats_body ++ rows)
  end.

Definition failure_stats (current_run : Z) (self : TestStats) : result string :=
  ts ← tasks self current_run;
  let failures :=
    foldl (fun d tf => failures_append (failed_stage tf) (failure_label tf) d)
          [] (List.filter failed ts) in
  let stats_start := replicate_char line_width "=" in
  let stats_title := "FAILURE STATISTICS" in
  let stats_end := replicate_char line_width "-" in
  let stats_hline :=
    row_format (replicate_char 13 "-") (replicate_char 5 "-")
               (replicate_char 60 "-") in
  let stats_header := row_format "Phase" "#" "Failing test cases" in
  ts' ← tasks self current_run;
  let num_tests := Z.of_nat (length ts') in
  let num_failures :=
    foldl (fun n l => n + Z.of_nat (length l)) 0 (map snd failures) in
  let stats_body :=
    [ "";
      "Total number of test cases: " +:+ pretty num_tests;
      "Total number of failures: " +:+ pretty num_failures;
      "";
      stats_header;
      stats_hline ] in
  stats_body ← stats_items failures stats_body;
  match stats_body with
  | _ :: _ => Ok (join nl ([stats_start; stats_title] ++ stats_body ++ [stats_end]))
  | [] => Ok ""
  end.

(** ** Performance report *)

(** [s.split(sep)] for a one-character separator. *)
Fixpoint split_on (sep : ascii) (s : string) : list string :=
  match s with
  | EmptyString => [""]
  | String c s' =>
      if Ascii.eqb c sep then "" :: split_on sep s'
      else match split_on sep s' with
           | [] => [String c ""]
           | w :: ws => String c w :: ws
           end
  end.

(** The line of one performance variable: the body of the loop over
    [t.check.perfvalues.items()]. *)
Definition perf_line (key : string) (ref : list PyVal) : result string :=
  var ← py_index (split_on ":" key) (-1);
  val ← py_index ref 0;
  unit ← match py_index ref 4 with
         | Ok u => Ok (py_str u)
         | Raise IndexError => Ok "(no unit specified)"
         | Raise e => Raise e
         end;
  Ok ("      * " +:+ var +:+ ": " +:+ py_str val +:+ " " +:+ unit).

(** [for key, ref in t.check.perfvalues.items(): ...] *)
Fixpoint perf_items (items : list (string * list PyVal)) (report_body : list string)
  : result (list string) :=
  match items with
  | [] => Ok report_body
  | (key, ref) :: rest =>
      line ← perf_line key ref;
      perf_items rest (report_body ++ [line])
  end.

(** The loop state of [performance_report]. *)
Record PerfState : Type := {
  report_body : list string;
  previous_name : string;
  previous_part : string
}.

(** One iteration of [for t in self.tasks(): ...]. *)
Definition perf_task (t : Task) (st : PerfState) : result PerfState :=
  st ←
    match perfvalues (check t) with
    | _ :: _ =>
        let st :=
          if negb (String.eqb (name (check t)) (previous_name st)) then
            {| report_body :=
                 report_body st ++
                 [replicate_char line_width "-"; name (check t)];
               previous_name := name (check t);
               previous_part := previous_part st |}
          else st in
        p ← getattr "fullname" (current_partition (check t));
        let st :=
          if negb (String.eqb (fullname p) (previous_part st)) then
            {| report_body := report_body st ++ ["- " +:+ fullname p];
               previous_name := previous_name st;
               previous_part := fullname p |}
          else st in
        Ok {| report_body :=
                report_body st ++
                ["   - " +:+ str_opt (environ_str <$> current_environ (check t));
                 "      * num_tasks: " +:+ pretty (num_tasks (check t))];
              previous_name := previous_name st;
              previous_part := previous_part st |}
    | [] => Ok st
    end;
  body ← perf_items (perfvalues (check t)) (report_body st);
  Ok {| report_body := body;
        previous_name := previous_name st;
        previous_part := previous_part st |}.

Fixpoint perf_tasks (ts : list Task) (st : PerfState) : result PerfState :=
  match ts with
  | [] => Ok st
  | t :: rest =>
      st' ← perf_task t st;
      perf_tasks rest st'
  end.

Definition performance_report (self : TestStats) : result string :=
  let report_start := replicate_char line_width "=" in
  let report_title := "PERFORMANCE REPORT" in
  let report_end := replicate_char line_width "-" in
  ts ← tasks self (-1);
  st ← perf_tasks ts {| report_body := []; previous_name := "";
                        previous_part := "" |};
  match report_body st with
  | _ :: _ =>
      Ok (join nl ([report_start; report_title] ++ report_body st ++ [report_end]))
  | [] => Ok ""
  end.

(** ** Auxiliary definitions used by the statements *)

(** The dictionary built by the loops of [retry_report] over the runs
    [runs], the first of which has number [run], with the lookups
    [self.tasks(run)] resolved. *)
Fixpoint retry_fold (run : nat) (runs : list (list Task))
    (messages : gmap string string) : gmap string string :=
  match runs with
  | [] => messages
  | ts :: rest =>
      retry_fold (S run) rest (retry_tasks_loop (Z.of_nat run) ts messages)
  end.

(** Strictly ascending order on strings. *)
Definition string_lt (s1 s2 : string) : Prop := String.ltb s1 s2 = true.

(** [needle in hay] *)
Fixpoint contains (needle hay : string) : bool :=
  String.prefix needle hay ||
  match hay with
  | EmptyString => false
  | String _ rest => contains needle rest
  end.

(** Whether projecting task [t] raises: the job block reads the scheduler
    of an absent partition, or the formatter raises. *)
Definition entry_faults (format_exception : ExcInfo → result string)
    (t : Task) : bool :=
  match job (check t), current_partition (check t) with
  | Some _, None => true
  | _, _ =>
      failed t &&
      match exc_info t with
      | Some ei => raises (format_exception ei)
      | None => false
      end
  end.

(** ** Sample data *)

Definition sample_partition : Partition :=
  {| fullname := "daint:gpu"; scheduler := {| registered_name := "slurm" |} |}.

Definition sample_environ : Environment :=
  {| environ_name := "gnu"; environ_str := "gnu" |}.

Definition sample_check (n : string) : RegressionCheck :=
  {| name := n; descr := "a check"; info := n +:+ " on daint:gpu using gnu";
     current_partition := Some sample_partition;
     current_environ := Some sample_environ;
     tags := []; maintainers := ["me"];
     job := None; _build_job := None;
     stdout := "out"; stderr := "err";
     build_stdout := "bout"; build_stderr := "berr";
     stagedir := Some "/stage"; outputdir := Some "/out";
     perfvalues := []; num_tasks := 1 |}.

Definition passed_task (n : string) : Task :=
  {| check := sample_check n; failed := false; exc_info := None;
     failed_stage := "cleanup" |}.

Definition failed_task (n stage : string) : Task :=
  {| check := sample_check n; failed := true;
     exc_info := Some {| exc_type := "SanityError"; exc_value := "assertion X failed";
                         exc_traceback := [] |};
     failed_stage := stage |}.

(** A formatter that cannot render the metadata of one kind of exception
    and renders every other as the exception value. *)
Definition strict_format (ei : ExcInfo) : result string :=
  if String.eqb (exc_type ei) "Unprintable"
  then Raise (FormatError "cannot format exception")
  else Ok (exc_value ei).

Definition unprintable_task (n : string) : Task :=
  {| check := sample_check n; failed := true;
     exc_info := Some {| exc_type := "Unprintable"; exc_value := "";
                         exc_traceback := [] |};
     failed_stage := "sanity" |}.

(** A task that failed without exception information. *)
Definition bare_failed_task (n : string) : Task :=
  {| check := sample_check n; failed := true; exc_info := None;
     failed_stage := "run" |}.

(** A check with two performance variables, the second without unit. *)
Definition perf_check (n : string) (part : option Partition) : RegressionCheck :=
  {| name := n; descr := "a performance check"; info := n;
     current_partition := part;
     current_environ := Some sample_environ;
     tags := []; maintainers := [];
     job := None; _build_job := None;
     stdout := "out"; stderr := "err";
     build_stdout := "bout"; build_stderr := "berr";
     stagedir := Some "/stage"; outputdir := Some "/out";
     perfvalues :=
       [("daint:gpu:bandwidth",
         [PyFloat "42.5"; PyFloat "40.0"; PyFloat "-0.1"; PyNone; PyStr "GB/s"]);
        ("daint:gpu:latency", [PyInt 7; PyInt 5; PyNone; PyFloat "0.5"])];
     num_tasks := 4 |}.

Definition perf_task_on (n : string) (part : option Partition) : Task :=
  {| check := perf_check n part; failed := false; exc_info := None;
     failed_stage := "cleanup" |}.

(** The lines that a task with performance values adds for itself: the
    [num_tasks] line and one line per performance variable. *)
Definition perf_lines_in (t : Task) (body : list string) : Prop :=
  ("      * num_tasks: " +:+ pretty (num_tasks (check t))) ∈ body ∧
  ∀ key ref, (key, ref) ∈ perfvalues (check t) →
    ∃ line, perf_line key ref = Ok line ∧ line ∈ body.

(** A task submitted as a job whose check has no partition. *)
Definition job_task_without_partition (n : string) : Task :=
  {| check :=
       {| name := n; descr := ""; info := n;
          current_partition := None; current_environ := None;
          tags := []; maintainers := [];
          job := Some {| jobid := PyInt 4711; nodelist := Some ["nid0001"] |};
          _build_job := None;
          stdout := "out"; stderr := "err";
          build_stdout := ""; build_stderr := "";
          stagedir := None; outputdir := Some "/out";
          perfvalues := []; num_tasks := 1 |};
     failed := false; exc_info := None; failed_stage := "cleanup" |}.

(** ** Drivers used by the statements about several calls *)

(** A session of the execution engine: a sequence of [add_task] calls, each
    made with the current run index the runtime has at that time. *)
Fixpoint add_tasks (calls : list (Z * Task)) (self : TestStats)
  : result TestStats :=
  match calls with
  | [] => Ok self
  | (current_run, task) :: rest =>
      self' ← add_task current_run self task;
      add_tasks rest self'
  end.

(** The tasks that a session added while the current run index was [run]. *)
Definition added_in_run (run : nat) (calls : list (Z * Task)) : list Task :=
  (filter (λ c, c.1 = Z.of_nat run) calls).*2.

(** The dictionary [failures] that the first loop of [failure_stats]
    builds from the failed tasks [fts] of the current run. *)
Definition group_failures (fts : list Task) : list (string * list string) :=
  foldl (fun d tf => failures_append (failed_stage tf) (failure_label tf) d)
        [] fts.

(** Whether the iteration of [performance_report] for task [t] raises: the
    task has performance values and either no partition or a reference
    tuple without elements. *)
Definition perf_task_faults (t : Task) : bool :=
  match perfvalues (check t) with
  | [] => false
  | _ :: _ =>
      match current_partition (check t) with
      | None => true
      | Some _ =>
          existsb (fun kr => match kr.2 with [] => true | _ :: _ => false end)
                  (perfvalues (check t))
      end
  end.

(** The lines that one iteration of the loop of [performance_report] adds
    for task [t]: nothing for a task without performance values; otherwise
    the test header or nothing, the partition line or nothing, the
    environment line, the [num_tasks] line and the lines of the performance
    variables in the order of the dictionary. *)
Definition perf_block_of (t : Task) (block : list string) : Prop :=
  match perfvalues (check t) with
  | [] => block = []
  | _ :: _ =>
      ∃ p name_header part_header lines,
        current_partition (check t) = Some p ∧
        (name_header = [] ∨
         name_header = [replicate_char 78 "-"; name (check t)]) ∧
        (part_header = [] ∨ part_header = ["- " +:+ fullname p]) ∧
        Forall2 (λ kr line, perf_line kr.1 kr.2 = Ok line)
                (perfvalues (check t)) lines ∧
        block =
          name_header ++ part_header ++
          ["   - " +:+ str_opt (environ_str <$> current_environ (check t));
           "      * num_tasks: " +:+ pretty (num_tasks (check t))] ++
          lines
  end.

(** * Properties *)

(** ** Indexing *)

Lemma norm_index_mod (len : nat) (i : Z) :
  - Z.of_nat len <= i < Z.of_nat len →
  norm_index len i = i mod Z.of_nat len.
Proof.
  intros Hi. unfold norm_index.
  destruct (Z.ltb_spec i 0).
  - apply Z.mod_unique with (q := -1); lia.
  - symmetry. apply Z.mod_small. lia.
Qed.

Lemma py_index_in_range {A} (l : list A) (i : Z) :
  - Z.of_nat (length l) <= i < Z.of_nat (length l) →
  ∃ x, py_index l i = Ok x ∧ l !! Z.to_nat (i mod Z.of_nat (length l)) = Some x.
Proof.
  intros Hi. unfold py_index.
  rewrite norm_index_mod by done.
  assert (0 <= i mod Z.of_nat (length l) < Z.of_nat (length l)) as Hm
    by (apply Z.mod_pos_bound; lia).
  destruct (Z.ltb_spec (i mod Z.of_nat (length l)) 0); [lia|].
  destruct (l !! Z.to_nat (i mod Z.of_nat (length l))) as [x|] eqn:Hx.
  - by exists x.
  - apply lookup_ge_None in Hx. lia.
Qed.

Lemma py_index_out_of_range {A} (l : list A) (i : Z) :
  i < - Z.of_nat (length l) ∨ Z.of_nat (length l) <= i →
  py_index l i = Raise IndexError.
Proof.
  intros Hi. unfold py_index, norm_index.
  destruct (Z.ltb_spec i 0).
  - destruct (Z.ltb_spec (i + Z.of_nat (length l)) 0); [done|lia].
  - destruct (Z.ltb_spec i 0); [lia|].
    destruct (l !! Z.to_nat i) eqn:Hx; [|done].
    apply lookup_lt_Some in Hx. lia.
Qed.

Lemma py_index_Ok {A} (l : list A) (i : Z) (x : A) :
  py_index l i = Ok x →
  - Z.of_nat (length l) <= i < Z.of_nat (length l) ∧
  l !! Z.to_nat (norm_index (length l) i) = Some x.
Proof.
  intros H.
  destruct (decide (- Z.of_nat (length l) <= i < Z.of_nat (length l))) as [Hi|Hi].
  - split; [done|]. revert H. unfold py_index.
    destruct (_ <? 0); [done|]. by destruct (l !! _); intros [= ->].
  - rewrite py_index_out_of_range in H by lia. done.
Qed.

Lemma py_index_nat {A} (l : list A) (i : nat) (x : A) :
  l !! i = Some x → py_index l (Z.of_nat i) = Ok x.
Proof.
  intros Hx. unfold py_index, norm_index.
  destruct (Z.ltb_spec (Z.of_nat i) 0); [lia|].
  destruct (Z.ltb_spec (Z.of_nat i) 0); [lia|].
  by rewrite Nat2Z.id, Hx.
Qed.

Lemma py_index_last {A} (l : list A) (x : A) :
  py_index (l ++ [x]) (-1) = Ok x.
Proof.
  unfold py_index, norm_index. simpl.
  rewrite length_app. simpl.
  destruct (Z.ltb_spec (-1 + Z.of_nat (length l + 1)) 0); [lia|].
  replace (Z.to_nat (-1 + Z.of_nat (length l + 1))) with (length l) by lia.
  by rewrite list_lookup_middle.
Qed.

Lemma tasks_nat (self : TestStats) (i : nat) (ts : list Task) :
  _alltasks self !! i = Some ts → tasks self (Z.of_nat i) = Ok ts.
Proof. intros H. unfold tasks. by rewrite (py_index_nat _ _ _ H). Qed.

(** ** The store *)

(** C5.  [tasks(run)] returns the task list of the run for every index in
    [-lastIndex-1 .. lastIndex], a negative index counting from the end (the
    run found is the one at position [run mod number_of_runs]), and raises
    [StatisticsError('no such run: ...')] for every index outside that
    interval, on either side. *)
Theorem tasks_run_lookup (self : TestStats) (run : Z) :
  let lastIndex := Z.of_nat (length (_alltasks self)) - 1 in
  (- lastIndex - 1 <= run <= lastIndex →
   ∃ ts, tasks self run = Ok ts ∧
         _alltasks self !! Z.to_nat (run mod (lastIndex + 1)) = Some ts) ∧
  (run < - lastIndex - 1 ∨ lastIndex < run →
   tasks self run = Raise (StatisticsError ("no such run: " +:+ pretty run))).
Proof.
  intros lastIndex. subst lastIndex. split.
  - intros Hr.
    destruct (py_index_in_range (_alltasks self) run) as (ts & Hts & Hl); [lia|].
    exists ts. unfold tasks. rewrite Hts. split; [done|].
    by replace (Z.of_nat (length (_alltasks self)) - 1 + 1)
      with (Z.of_nat (length (_alltasks self))) by lia.
  - intros Hr. unfold tasks.
    rewrite py_index_out_of_range by lia. done.
Qed.

Lemma tasks_run_lookup_witness :
  (∃ ts, tasks {| _alltasks := [[]; []] |} (-2) = Ok ts ∧
         ([[]; []] : list (list Task)) !! Z.to_nat ((-2) mod 2) = Some ts) ∧
  tasks {| _alltasks := [[]; []] |} 2 = Raise (StatisticsError "no such run: 2").
Proof.
  split.
  - apply (tasks_run_lookup {| _alltasks := [[]; []] |} (-2)). simpl. lia.
  - apply (tasks_run_lookup {| _alltasks := [[]; []] |} 2). simpl. lia.
Defined.

Lemma add_task_out_of_range (current_run : Z) (self : TestStats) (task : Task) :
  current_run < - Z.of_nat (length (_alltasks self)) ∨
  Z.of_nat (length (_alltasks self)) < current_run →
  add_task current_run self task = Raise IndexError.
Proof.
  intros Hr. unfold add_task.
  destruct (Z.eqb_spec current_run (Z.of_nat (length (_alltasks self)))); [lia|].
  rewrite py_index_out_of_range by lia. done.
Qed.

(** C10.  A call of [add_task] with the current run index within the store
    (from [-n] to [n] for [n] existing runs, [n] itself being one past the
    last index) returns a store in which: a run was created exactly when the
    current run index equals [n], and then only one; the run at the current
    run index is its former contents (nothing for a run just created)
    followed by the task; every other existing run is unchanged.  The runs
    are the positions [0 .. n'-1] of the list, so the indices stay
    contiguous from 0. *)
Theorem add_task_appends (current_run : Z) (self : TestStats) (task : Task) :
  let n := length (_alltasks self) in
  - Z.of_nat n <= current_run <= Z.of_nat n →
  ∃ self',
    add_task current_run self task = Ok self' ∧
    let n' := length (_alltasks self') in
    let i := Z.to_nat (current_run mod Z.of_nat n') in
    n' = (if current_run =? Z.of_nat n then S n else n) ∧
    (0 <= current_run → i = Z.to_nat current_run) ∧
    _alltasks self' !! i = Some (default [] (_alltasks self !! i) ++ [task]) ∧
    (∀ j, j ≠ i → (j < n)%nat → _alltasks self' !! j = _alltasks self !! j) ∧
    (∀ j, (j < n')%nat ↔ is_Some (_alltasks self' !! j)).
Proof.
  intros n Hr. subst n. unfold add_task.
  destruct self as [runs]. simpl in *.
  destruct (Z.eqb_spec current_run (Z.of_nat (length runs))) as [->|Hne].
  - (* the current run has advanced one past the last index *)
    rewrite (py_index_nat (runs ++ [[]]) (length runs) [])
      by (by apply list_lookup_middle).
    eexists. split; [reflexivity|]. simpl.
    rewrite length_insert, length_app. simpl.
    unfold norm_index.
    destruct (Z.ltb_spec (Z.of_nat (length runs)) 0); [lia|].
    rewrite Nat2Z.id.
    assert (Z.to_nat (Z.of_nat (length runs) mod Z.of_nat (length runs + 1))
            = length runs) as ->.
    { rewrite Z.mod_small by lia. lia. }
    split; [lia|]. split; [lia|]. split; [|split].
    + rewrite list_lookup_insert_eq by (rewrite length_app; simpl; lia).
      by rewrite (lookup_ge_None_2 runs (length runs)) by lia.
    + intros j Hj Hlt.
      rewrite list_lookup_insert_ne by done.
      by rewrite lookup_app_l by done.
    + intros j. rewrite lookup_lt_is_Some, length_insert, length_app.
      simpl. lia.
  - destruct (py_index_in_range runs current_run) as (x & Hx & Hl); [lia|].
    rewrite Hx. eexists. split; [reflexivity|]. simpl.
    rewrite length_insert.
    rewrite norm_index_mod by lia.
    assert (0 <= current_run mod Z.of_nat (length runs) < Z.of_nat (length runs))
      as Hm by (apply Z.mod_pos_bound; lia).
    split; [done|]. split; [|split; [|split]].
    + intros H0. by rewrite Z.mod_small by lia.
    + rewrite list_lookup_insert_eq by lia. by rewrite Hl.
    + intros j Hj Hlt. by rewrite list_lookup_insert_ne.
    + intros j. by rewrite lookup_lt_is_Some, length_insert.
Qed.

Lemma add_task_appends_witness :
  ∃ self',
    add_task 1 init (passed_task "t1") = Ok self' ∧
    _alltasks self' = [[]; [passed_task "t1"]].
Proof.
  destruct (add_task_appends 1 init (passed_task "t1")) as (self' & H & _).
  - simpl. lia.
  - exists self'. split; [exact H|].
    vm_compute in H. injection H as <-. reflexivity.
Defined.

(** ** Retry report *)

(** C8.  With the current run index 0 the retry report is the empty
    string, whatever the store holds. *)
Theorem retry_report_no_retries (self : TestStats) :
  retry_report 0 self = Ok "".
Proof. reflexivity. Qed.

Section RetryMessages.

Implicit Types (m : gmap string string) (ts : list Task) (k : string).

Lemma retry_tasks_loop_app run ts1 ts2 m :
  retry_tasks_loop run (ts1 ++ ts2) m
  = retry_tasks_loop run ts2 (retry_tasks_loop run ts1 m).
Proof. unfold retry_tasks_loop. apply foldl_app. Qed.

(** Tasks with other keys leave the entry of [k] alone. *)
Lemma retry_tasks_loop_other run ts m k :
  Forall (λ u, retry_key u ≠ k) ts →
  retry_tasks_loop run ts m !! k = m !! k.
Proof.
  intros Hts. revert m.
  induction Hts as [|u ts Hu _ IH]; intros m; [done|].
  unfold retry_tasks_loop in *. simpl.
  rewrite IH. by rewrite lookup_insert_ne.
Qed.

(** The last task of a run with a given key decides the entry. *)
Lemma retry_tasks_loop_last run pre post t m :
  Forall (λ u, retry_key u ≠ retry_key t) post →
  retry_tasks_loop run (pre ++ t :: post) m !! retry_key t
  = Some (retry_message t run).
Proof.
  intros Hpost.
  rewrite retry_tasks_loop_app.
  change (retry_tasks_loop run (t :: post) ?m')
    with (retry_tasks_loop run post (<[retry_key t := retry_message t run]> m')).
  rewrite retry_tasks_loop_other by done.
  apply lookup_insert_eq.
Qed.

(** Where an entry of the dictionary comes from. *)
Lemma retry_tasks_loop_origin run ts m k v :
  retry_tasks_loop run ts m !! k = Some v →
  m !! k = Some v ∨ ∃ u, u ∈ ts ∧ retry_key u = k ∧ v = retry_message u run.
Proof.
  revert m. induction ts as [|t ts IH]; intros m; [by left|].
  change (retry_tasks_loop run (t :: ts) m)
    with (retry_tasks_loop run ts (<[retry_key t := retry_message t run]> m)).
  intros [H|(u & Hu & Hk & Hv)]%IH.
  - destruct (decide (retry_key t = k)) as [Heq|Hne].
    + rewrite Heq, lookup_insert_eq in H. injection H as <-.
      right. exists t. split; [left|done].
    + rewrite lookup_insert_ne in H by done. by left.
  - right. exists u. split; [by right|done].
Qed.

Lemma retry_fold_other run runs m k :
  Forall (Forall (λ u, retry_key u ≠ k)) runs →
  retry_fold run runs m !! k = m !! k.
Proof.
  intros Hruns. revert run m.
  induction Hruns as [|ts runs Hts _ IH]; intros run m; [done|].
  simpl. rewrite IH. by apply retry_tasks_loop_other.
Qed.

(** Latest retry wins: the entry of a key is the message of the last task
    with that key in the highest run that has one. *)
Lemma retry_fold_latest run earlier later pre post t m :
  Forall (λ u, retry_key u ≠ retry_key t) post →
  Forall (Forall (λ u, retry_key u ≠ retry_key t)) later →
  retry_fold run (earlier ++ (pre ++ t :: post) :: later) m !! retry_key t
  = Some (retry_message t (Z.of_nat (run + length earlier))).
Proof.
  intros Hpost Hlater. revert run m.
  induction earlier as [|ts earlier IH]; intros run m; simpl.
  - rewrite retry_fold_other by done.
    rewrite Nat.add_0_r. by apply retry_tasks_loop_last.
  - rewrite IH. do 3 f_equal. lia.
Qed.

Lemma retry_fold_origin run runs m k v :
  retry_fold run runs m !! k = Some v →
  m !! k = Some v ∨
  ∃ i ts u, runs !! i = Some ts ∧ u ∈ ts ∧ retry_key u = k ∧
            v = retry_message u (Z.of_nat (run + i)).
Proof.
  revert run m. induction runs as [|ts runs IH]; intros run m; [by left|].
  simpl. intros [H|(i & ts' & u & Hi & Hu & Hk & Hv)]%IH.
  - apply retry_tasks_loop_origin in H as [H|(u & Hu & Hk & Hv)]; [by left|].
    right. exists 0%nat, ts, u. rewrite Nat.add_0_r. done.
  - right. exists (S i), ts', u. split; [done|]. split; [done|]. split; [done|].
    rewrite Hv. do 2 f_equal. lia.
Qed.

(** The loop of [retry_report] looks up every run it visits without
    fault, so it computes [retry_fold]. *)
Lemma retry_runs_loop_fold (self : TestStats) run rest m :
  drop run (_alltasks self) = rest →
  retry_runs_loop self (seq run (length rest)) m = Ok (retry_fold run rest m).
Proof.
  revert run m. induction rest as [|ts rest IH]; intros run m Hdrop; [done|].
  simpl.
  assert (_alltasks self !! run = Some ts) as Hrun.
  { rewrite <- (Nat.add_0_r run), <- lookup_drop, Hdrop. done. }
  rewrite (tasks_nat _ _ _ Hrun). simpl.
  apply IH.
  rewrite (drop_S _ _ _ Hrun) in Hdrop. by injection Hdrop.
Qed.

Lemma retry_report_messages (current_run : Z) (self : TestStats) :
  current_run ≠ 0 →
  let messages := retry_fold 1 (drop 1 (_alltasks self)) ∅ in
  retry_report current_run self
  = Ok (join nl (retry_banner ++
                 map (fun key => messages !!! key) (sorted_keys messages))).
Proof.
  intros Hcur messages. unfold retry_report.
  destruct (Z.eqb_spec current_run 0); [done|].
  replace (length (_alltasks self) - 1)%nat
    with (length (drop 1 (_alltasks self))) by (rewrite length_drop; lia).
  by rewrite (retry_runs_loop_fold self 1 (drop 1 (_alltasks self))).
Qed.

(** The sorted keys are strictly ascending and are the keys of the
    dictionary. *)
Lemma leb_ne_ltb (s1 s2 : string) :
  String.le s1 s2 → s1 ≠ s2 → string_lt s1 s2.
Proof.
  unfold String.le, string_lt, String.leb, String.ltb.
  intros Hle Hne.
  destruct (String.compare s1 s2) eqn:Hc; [|done|done].
  by apply String.compare_eq_iff in Hc.
Qed.

Lemma sorted_keys_elem m k : k ∈ sorted_keys m ↔ is_Some (m !! k).
Proof.
  unfold sorted_keys. rewrite merge_sort_Permutation.
  rewrite list_elem_of_fmap. split.
  - intros ([k' v] & -> & H%elem_of_map_to_list). by exists v.
  - intros [v Hv]. exists (k, v). split; [done|].
    by apply elem_of_map_to_list.
Qed.

Lemma sorted_keys_ascending m : StronglySorted string_lt (sorted_keys m).
Proof.
  assert (NoDup (sorted_keys m)) as Hnd.
  { unfold sorted_keys. rewrite merge_sort_Permutation.
    apply NoDup_fst_map_to_list. }
  assert (StronglySorted String.le (sorted_keys m)) as Hs.
  { apply StronglySorted_merge_sort; apply _. }
  induction Hs as [|k ks Hs IH Hk]; [constructor|].
  apply NoDup_cons in Hnd as [Hnotin Hnd].
  constructor; [by apply IH|].
  apply Forall_forall. intros k' Hk'.
  apply leb_ne_ltb.
  - rewrite Forall_forall in Hk. by apply Hk.
  - intros ->. done.
Qed.

End RetryMessages.

(** C6.  In a retry report (current run not 0), let a key occur in retried
    run [r >= 1], its last task there being [t], and in no later run
    (whether or not it occurs in earlier retried runs too).  The body of
    the report is one line per key, the keys strictly ascending in the
    lexicographic order of strings (so no key has two lines); each line is
    the message of a task of a retried run; and the line of the key of [t]
    is the message of [t] for run [r]: retried [r] time(s) with the outcome
    of [t]. *)
Theorem retry_report_latest_retry_wins (current_run : Z) (self : TestStats)
    (earlier later : list (list Task)) (pre post : list Task) (t : Task) :
  current_run ≠ 0 →
  _alltasks self = earlier ++ (pre ++ t :: post) :: later →
  (1 ≤ length earlier)%nat →
  Forall (λ u, retry_key u ≠ retry_key t) post →
  Forall (Forall (λ u, retry_key u ≠ retry_key t)) later →
  ∃ entries : list (string * string),
    retry_report current_run self = Ok (join nl (retry_banner ++ entries.*2)) ∧
    StronglySorted string_lt entries.*1 ∧
    (∀ k msg, (k, msg) ∈ entries →
       ∃ run ts u, (1 ≤ run)%nat ∧ _alltasks self !! run = Some ts ∧ u ∈ ts ∧
                   k = retry_key u ∧ msg = retry_message u (Z.of_nat run)) ∧
    (∀ msg, (retry_key t, msg) ∈ entries ↔
            msg = retry_message t (Z.of_nat (length earlier))).
Proof.
  intros Hcur Hruns Hearlier Hpost Hlater.
  set (messages := retry_fold 1 (drop 1 (_alltasks self)) ∅).
  exists (map (λ k, (k, messages !!! k)) (sorted_keys messages)).
  assert (∀ k msg,
    (k, msg) ∈ map (λ k, (k, messages !!! k)) (sorted_keys messages) ↔
    messages !! k = Some msg) as Hentries.
  { intros k msg. rewrite list_elem_of_fmap. split.
    - intros (k' & [= <- ->] & [v Hv]%sorted_keys_elem).
      by rewrite lookup_total_alt, Hv.
    - intros Hk. exists k. split.
      + by rewrite lookup_total_alt, Hk.
      + apply sorted_keys_elem. by exists msg. }
  assert (messages !! retry_key t
          = Some (retry_message t (Z.of_nat (length earlier)))) as Ht.
  { subst messages. rewrite Hruns.
    destruct earlier as [|run0 earlier]; [simpl in Hearlier; lia|].
    simpl. rewrite drop_0.
    rewrite retry_fold_latest by done.
    reflexivity. }
  split; [|split; [|split]].
  - rewrite retry_report_messages by done. fold messages.
    do 3 f_equal. unfold fmap. rewrite map_map. done.
  - unfold fmap. rewrite map_map. simpl. rewrite map_id.
    apply sorted_keys_ascending.
  - intros k msg Hk. apply Hentries in Hk.
    apply retry_fold_origin in Hk as [Hk|(i & ts & u & Hi & Hu & Hku & Hv)].
    + by rewrite lookup_empty in Hk.
    + exists (1 + i)%nat, ts, u.
      split; [lia|]. rewrite lookup_drop in Hi. done.
  - intros msg. rewrite Hentries, Ht.
    split; [by intros [= ->] | by intros ->].
Qed.

Lemma retry_report_latest_retry_wins_witness :
  ∃ entries : list (string * string),
    retry_report 2
      {| _alltasks := [[failed_task "t1" "sanity"]; [failed_task "t1" "sanity"];
                       [passed_task "t1"]] |}
    = Ok (join nl (retry_banner ++ entries.*2)) ∧
    (∀ msg, (retry_key (passed_task "t1"), msg) ∈ entries ↔
            msg = "  * Test t1 on daint:gpu using gnu was retried 2 time(s) and passed.").
Proof.
  destruct (retry_report_latest_retry_wins 2
    {| _alltasks := [[failed_task "t1" "sanity"]; [failed_task "t1" "sanity"];
                     [passed_task "t1"]] |}
    [[failed_task "t1" "sanity"]; [failed_task "t1" "sanity"]] [] [] []
    (passed_task "t1")) as (entries & H1 & _ & _ & H2).
  - lia.
  - reflexivity.
  - simpl. lia.
  - constructor.
  - constructor.
  - exists entries. split; [exact H1 | exact H2].
Defined.

(** ** Failure statistics *)

(** C9.  When the current run holds no task, [failure_stats] returns the
    banner, the two zero totals and the table header: a report that is not
    empty and that contains "Total number of test cases: 0" and
    "Total number of failures: 0". *)
Theorem failure_stats_empty_run (current_run : Z) (self : TestStats) :
  tasks self current_run = Ok [] →
  ∃ report,
    failure_stats current_run self = Ok report ∧
    report =
      join nl
        [ replicate_char 78 "="; "FAILURE STATISTICS"; "";
          "Total number of test cases: 0"; "Total number of failures: 0"; "";
          row_format "Phase" "#" "Failing test cases";
          row_format (replicate_char 13 "-") (replicate_char 5 "-")
                     (replicate_char 60 "-");
          replicate_char 78 "-" ] ∧
    report ≠ "" ∧
    contains "FAILURE STATISTICS" report = true ∧
    contains "Total number of test cases: 0" report = true ∧
    contains "Total number of failures: 0" report = true.
Proof.
  intros Hts. eexists. split.
  - unfold failure_stats. rewrite Hts. simpl. reflexivity.
  - split; [vm_compute; reflexivity|].
    split; [vm_compute; discriminate|].
    repeat split; vm_compute; reflexivity.
Qed.

Lemma failure_stats_empty_run_witness :
  ∃ report, failure_stats 0 init = Ok report ∧
            contains "Total number of failures: 0" report = true.
Proof.
  destruct (failure_stats_empty_run 0 init) as (report & H & _ & _ & _ & _ & H0).
  - reflexivity.
  - exists report. split; [exact H | exact H0].
Defined.

(** ** The projector *)

Section Projector.

Variable format_exception : ExcInfo → result string.

Implicit Types (t : Task) (ts : list Task) (r : Entry) (rs : list Entry).

Lemma json_entry_raises run_no t :
  raises (json_entry format_exception run_no t)
  = entry_faults format_exception t.
Proof.
  unfold json_entry, entry_faults.
  destruct (job (check t)), (current_partition (check t)); simpl;
    destruct (_build_job (check t)), (failed t); simpl; try done;
    destruct (exc_info t); simpl; try done;
    by destruct (format_exception _).
Qed.

Lemma json_entry_run_no run_no t r :
  json_entry format_exception run_no t = Ok r →
  entry_run_no r = Z.of_nat run_no.
Proof.
  unfold json_entry.
  destruct (job (check t)), (current_partition (check t)); simpl;
    destruct (_build_job (check t)), (failed t); simpl; try done;
    try (destruct (exc_info t); simpl; try done;
         try destruct (format_exception _); simpl; try done);
    by intros [= <-].
Qed.

(** The outcome-dependent fields of an entry. *)
Lemma json_entry_outcome run_no t r :
  json_entry format_exception run_no t = Ok r →
  if failed t then
    entry_result r = "fail" ∧ entry_outputdir r = None ∧
    match exc_info t with
    | Some ei =>
        ∃ reason, format_exception ei = Ok reason ∧
                  entry_failing_reason r = Some reason ∧
                  entry_failing_phase r = Some (failed_stage t) ∧
                  entry_stagedir r = stagedir (check t)
    | None =>
        entry_failing_reason r = None ∧ entry_failing_phase r = None ∧
        entry_stagedir r = None
    end
  else
    entry_result r = "success" ∧ entry_outputdir r = outputdir (check t) ∧
    entry_stagedir r = None ∧ entry_failing_reason r = None ∧
    entry_failing_phase r = None.
Proof.
  unfold json_entry.
  destruct (job (check t)), (current_partition (check t)); simpl;
    destruct (_build_job (check t)), (failed t); simpl; try done;
    try (destruct (exc_info t); simpl; try done;
         try destruct (format_exception _) eqn:?; simpl; try done);
    intros [= <-]; simpl; eauto 10.
Qed.

Lemma json_run_inv run_no ts records out :
  json_run format_exception run_no ts records = Ok out →
  ∃ rs, out = records ++ rs ∧
        Forall2 (λ t r, json_entry format_exception run_no t = Ok r) ts rs.
Proof.
  revert records. induction ts as [|t ts IH]; intros records; simpl.
  - intros [= <-]. exists []. by rewrite app_nil_r.
  - destruct (json_entry format_exception run_no t) as [r|] eqn:Hr; [|done].
    simpl. intros (rs & -> & Hrs)%IH.
    exists (r :: rs). split; [by rewrite <- app_assoc|]. by constructor.
Qed.

Lemma json_run_total run_no ts records :
  Forall (λ t, entry_faults format_exception t = false) ts →
  ∃ out, json_run format_exception run_no ts records = Ok out.
Proof.
  intros Hts. revert records.
  induction Hts as [|t ts Ht _ IH]; intros records; simpl; [by eexists|].
  rewrite <- (json_entry_raises run_no) in Ht.
  destruct (json_entry format_exception run_no t); [|done]. simpl. apply IH.
Qed.

Lemma json_runs_inv run_no runs records out :
  json_runs format_exception run_no runs records = Ok out →
  ∃ per_run : list (list Entry),
    out = records ++ concat per_run ∧
    length runs = length per_run ∧
    ∀ i ts rs, runs !! i = Some ts → per_run !! i = Some rs →
      Forall2 (λ t r, json_entry format_exception (run_no + i) t = Ok r) ts rs.
Proof.
  revert run_no records.
  induction runs as [|run runs IH]; intros run_no records; simpl.
  - intros [= <-]. exists []. by rewrite app_nil_r.
  - destruct (json_run format_exception run_no run records) as [recs|] eqn:Hrun;
      [|done].
    simpl. apply json_run_inv in Hrun as (rs0 & -> & Hrs0).
    intros (per_run & -> & Hlen & Hall)%IH.
    exists (rs0 :: per_run). split; [by rewrite <- app_assoc|].
    split; [simpl; by f_equal|].
    intros [|i] ts rs; simpl.
    + intros [= <-] [= <-]. by rewrite Nat.add_0_r.
    + intros Hts Hrs. rewrite <- Nat.add_succ_comm. by eapply Hall.
Qed.

Lemma json_runs_total run_no runs records :
  Forall (Forall (λ t, entry_faults format_exception t = false)) runs →
  ∃ out, json_runs format_exception run_no runs records = Ok out.
Proof.
  intros Hruns. revert run_no records.
  induction Hruns as [|run runs Hrun _ IH]; intros run_no records; simpl;
    [by eexists|].
  destruct (json_run_total run_no run records Hrun) as [recs ->]. simpl.
  apply IH.
Qed.

Lemma length_concat_Forall2 {A B} (ls : list (list A)) (ks : list (list B)) :
  Forall2 (λ l k, length l = length k) ls ks →
  length (concat ks) = sum_list_with length ls.
Proof.
  induction 1 as [|l k ls ks Hlk _ IH]; [done|].
  simpl. rewrite length_app. lia.
Qed.

(** C7.  On a store none of whose tasks raises while it is projected,
    [json] returns one record per task: the records are, run after run and
    in the order of the tasks, the entries of the tasks; their number is
    the sum of the task counts of the runs; and the [run_no] of every
    record is the index of the run that holds its task. *)
Theorem json_one_record_per_task (current_run : Z) (self : TestStats) :
  Forall (Forall (λ t, entry_faults format_exception t = false))
         (_alltasks self) →
  ∃ per_run : list (list Entry),
    json format_exception current_run self = Ok (concat per_run) ∧
    length (concat per_run) = sum_list_with length (_alltasks self) ∧
    Forall2 (λ ts rs, length ts = length rs) (_alltasks self) per_run ∧
    ∀ i ts rs, _alltasks self !! i = Some ts → per_run !! i = Some rs →
      Forall2 (λ t r, json_entry format_exception i t = Ok r ∧
                      entry_run_no r = Z.of_nat i) ts rs.
Proof.
  intros Hok.
  destruct (json_runs_total 0 (_alltasks self) [] Hok) as [out Hout].
  destruct (json_runs_inv _ _ _ _ Hout) as (per_run & -> & Hlen & Hall).
  exists per_run. simpl in *.
  assert (Forall2 (λ ts rs, length ts = length rs) (_alltasks self) per_run)
    as Hlens.
  { apply Forall2_same_length_lookup_2; [done|].
    intros i ts rs Hts Hrs. eapply Forall2_length, Hall; done. }
  split; [exact Hout|]. split; [by apply length_concat_Forall2|].
  split; [done|].
  intros i ts rs Hts Hrs.
  eapply Forall2_impl; [by eapply Hall|].
  simpl. intros t r Hr. split; [done|]. by eapply json_entry_run_no.
Qed.

(** What [json] returns, record by record. *)
Lemma json_records (current_run : Z) (self : TestStats) records :
  json format_exception current_run self = Ok records →
  ∃ per_run : list (list Entry),
    records = concat per_run ∧
    Forall2 (Forall2 (λ t r, ∃ i, json_entry format_exception i t = Ok r))
            (_alltasks self) per_run.
Proof.
  intros (per_run & -> & Hlen & Hall)%json_runs_inv.
  exists per_run. split; [done|].
  apply Forall2_same_length_lookup_2; [done|].
  intros i ts rs Hts Hrs.
  eapply Forall2_impl; [by eapply Hall|]. simpl. eauto.
Qed.

Lemma Forall2_concat_flat {A B} (P : A → B → Prop) ls ks :
  Forall2 (Forall2 P) ls ks → Forall2 P (concat ls) (concat ks).
Proof.
  induction 1 as [|l k ls ks Hlk _ IH]; [constructor|].
  simpl. by apply Forall2_app.
Qed.

(** C3, as the code has it.  Every record that [json] returns belongs to
    one task, in order.  For a task that did not fail the record has result
    "success" and the output directory of the check, and its stage
    directory, failing reason and failing phase are [None].  For a failed
    task the record has result "fail" and no output directory; the
    formatted diagnostic, the failing stage and the stage directory are
    recorded when the task has exception information, and all three are
    [None] when it has none.  Hence an output directory is recorded only
    for a task that succeeded and a stage directory only for one that
    failed. *)
Theorem json_outcome_fields (current_run : Z) (self : TestStats) records :
  json format_exception current_run self = Ok records →
  Forall2
    (λ t r,
       (if failed t then
          entry_result r = "fail" ∧ entry_outputdir r = None ∧
          match exc_info t with
          | Some ei =>
              ∃ reason, format_exception ei = Ok reason ∧
                        entry_failing_reason r = Some reason ∧
                        entry_failing_phase r = Some (failed_stage t) ∧
                        entry_stagedir r = stagedir (check t)
          | None =>
              entry_failing_reason r = None ∧ entry_failing_phase r = None ∧
              entry_stagedir r = None
          end
        else
          entry_result r = "success" ∧
          entry_outputdir r = outputdir (check t) ∧
          entry_stagedir r = None ∧ entry_failing_reason r = None ∧
          entry_failing_phase r = None) ∧
       (is_Some (entry_outputdir r) → failed t = false) ∧
       (is_Some (entry_stagedir r) → failed t = true))
    (concat (_alltasks self)) records.
Proof.
  intros (per_run & -> & Hall)%json_records.
  apply Forall2_concat_flat.
  eapply Forall2_impl; [exact Hall|]. simpl. intros ts rs Hrs.
  eapply Forall2_impl; [exact Hrs|]. simpl. intros t r [i Hr].
  pose proof (json_entry_outcome _ _ _ Hr) as Hout.
  split; [exact Hout|].
  destruct (failed t).
  - destruct Hout as (_ & Hnone & _). rewrite Hnone.
    split; [by intros [? [=]]|done].
  - destruct Hout as (_ & _ & Hnone & _). rewrite Hnone.
    split; [done|by intros [? [=]]].
Qed.

(** C2, as the code has it.  When the formatter raises on the exception
    information of a failed task of any run, [json] raises, and
    [failure_report] raises the same exception: no record is degraded to a
    placeholder and no report is returned. *)
Theorem format_fault_aborts_report (current_run : Z) (self : TestStats)
    ts t ei e :
  ts ∈ _alltasks self → t ∈ ts →
  failed t = true → exc_info t = Some ei → format_exception ei = Raise e →
  ∃ e', json format_exception current_run self = Raise e' ∧
        failure_report format_exception current_run self = Raise e'.
Proof.
  intros Hts Ht Hfailed Hei Hfmt.
  destruct (json format_exception current_run self) as [records|e'] eqn:Hjson.
  - exfalso.
    apply json_records in Hjson as (per_run & _ & Hall).
    apply list_elem_of_lookup in Hts as [i Hi].
    destruct (Forall2_lookup_l _ _ _ _ _ Hall Hi) as (rs & _ & Hrs).
    apply list_elem_of_lookup in Ht as [j Hj].
    destruct (Forall2_lookup_l _ _ _ _ _ Hrs Hj) as (r & _ & n & Hr).
    pose proof (json_entry_outcome _ _ _ Hr) as Hout.
    rewrite Hfailed, Hei in Hout.
    destruct Hout as (_ & _ & reason & Hreason & _). congruence.
  - exists e'. split; [done|].
    unfold failure_report. by rewrite Hjson.
Qed.

End Projector.

Lemma json_one_record_per_task_witness :
  ∃ per_run : list (list Entry),
    json strict_format 1
      {| _alltasks := [[passed_task "t1"; failed_task "t2" "sanity"];
                       [passed_task "t2"]] |}
    = Ok (concat per_run) ∧
    length (concat per_run) = 3%nat.
Proof.
  destruct (json_one_record_per_task strict_format 1
    {| _alltasks := [[passed_task "t1"; failed_task "t2" "sanity"];
                     [passed_task "t2"]] |}) as (per_run & H1 & H2 & _).
  - repeat constructor.
  - exists per_run. split; [exact H1 | exact H2].
Defined.

Lemma json_outcome_fields_witness :
  Forall2 (λ t r, is_Some (entry_stagedir r) → failed t = true)
    [passed_task "t1"; failed_task "t2" "sanity"]
    [ {| entry_testname := "t1"; entry_description := "a check";
         entry_system := Some "daint:gpu"; entry_environment := Some "gnu";
         entry_tags := []; entry_maintainers := ["me"];
         entry_scheduler := None; entry_jobid := PyNone; entry_nodelist := [];
         entry_job_stdout := None; entry_job_stderr := None;
         entry_build_stdout := None; entry_build_stderr := None;
         entry_failing_reason := None; entry_failing_phase := None;
         entry_outputdir := Some "/out"; entry_stagedir := None;
         entry_result := "success"; entry_run_no := 0 |};
      {| entry_testname := "t2"; entry_description := "a check";
         entry_system := Some "daint:gpu"; entry_environment := Some "gnu";
         entry_tags := []; entry_maintainers := ["me"];
         entry_scheduler := None; entry_jobid := PyNone; entry_nodelist := [];
         entry_job_stdout := None; entry_job_stderr := None;
         entry_build_stdout := None; entry_build_stderr := None;
         entry_failing_reason := Some "assertion X failed";
         entry_failing_phase := Some "sanity";
         entry_outputdir := None; entry_stagedir := Some "/stage";
         entry_result := "fail"; entry_run_no := 0 |} ].
Proof.
  eapply Forall2_impl.
  - apply (json_outcome_fields strict_format 0
      {| _alltasks := [[passed_task "t1"; failed_task "t2" "sanity"]] |}).
    reflexivity.
  - simpl. intros t r (_ & _ & H). exact H.
Defined.

(** C3, counterexample to the claim as stated: a task that failed without
    exception information is projected to a record that has neither the
    failing stage nor the stage directory, although the task has a failed
    stage and the check a stage directory. *)
Lemma json_failed_task_without_exc_info :
  ∃ r, json strict_format 0 {| _alltasks := [[bare_failed_task "t1"]] |} = Ok [r] ∧
       failed (bare_failed_task "t1") = true ∧
       failed_stage (bare_failed_task "t1") = "run" ∧
       stagedir (check (bare_failed_task "t1")) = Some "/stage" ∧
       entry_failing_reason r = None ∧
       entry_failing_phase r = None ∧
       entry_stagedir r = None.
Proof. eexists. split; [reflexivity|]. repeat split. Qed.

Lemma format_fault_aborts_report_witness :
  ∃ e', json strict_format 0
          {| _alltasks := [[failed_task "t1" "sanity"; unprintable_task "t2"]] |}
        = Raise e' ∧
        failure_report strict_format 0
          {| _alltasks := [[failed_task "t1" "sanity"; unprintable_task "t2"]] |}
        = Raise e'.
Proof.
  apply (format_fault_aborts_report strict_format 0
           {| _alltasks := [[failed_task "t1" "sanity"; unprintable_task "t2"]] |}
           [failed_task "t1" "sanity"; unprintable_task "t2"]
           (unprintable_task "t2")
           {| exc_type := "Unprintable"; exc_value := ""; exc_traceback := [] |}
           (FormatError "cannot format exception")).
  - left.
  - right. left.
  - reflexivity.
  - reflexivity.
  - reflexivity.
Defined.

(** C2, counterexample to the claim as stated: with one failed record whose
    metadata the formatter cannot render, next to one it can, the failure
    report is not returned at all. *)
Lemma failure_report_aborts_on_format_fault :
  failure_report strict_format 0
    {| _alltasks := [[failed_task "t1" "sanity"; unprintable_task "t2"]] |}
  = Raise (FormatError "cannot format exception") ∧
  ¬ ∃ report,
      failure_report strict_format 0
        {| _alltasks := [[failed_task "t1" "sanity"; unprintable_task "t2"]] |}
      = Ok report.
Proof. split; [reflexivity|]. intros [report H]. discriminate H. Qed.

(** ** Performance report *)

Lemma perf_lines_in_mono t before body after :
  perf_lines_in t body → perf_lines_in t (before ++ body ++ after).
Proof.
  intros [Hn Hl]. split.
  - set_solver.
  - intros key ref Hk. destruct (Hl key ref Hk) as (line & ? & ?).
    exists line. set_solver.
Qed.

Lemma perf_items_inv items body out :
  perf_items items body = Ok out →
  ∃ lines, out = body ++ lines ∧
           Forall2 (λ kr line, perf_line kr.1 kr.2 = Ok line) items lines.
Proof.
  revert body. induction items as [|[key ref] items IH]; intros body; simpl.
  - intros [= <-]. exists []. by rewrite app_nil_r.
  - destruct (perf_line key ref) as [line|] eqn:Hline; [|done]. simpl.
    intros (lines & -> & Hlines)%IH.
    exists (line :: lines). split; [by rewrite <- app_assoc|]. by constructor.
Qed.

(** One iteration only appends to the body, and a task with performance
    values appends its own lines. *)
Lemma perf_task_inv t st st' :
  perf_task t st = Ok st' →
  ∃ lines, report_body st' = report_body st ++ lines ∧
           (perfvalues (check t) ≠ [] → perf_lines_in t lines).
Proof.
  unfold perf_task.
  destruct (perfvalues (check t)) as [|kr items] eqn:Hpv.
  - simpl. intros [= <-]. exists []. simpl. by rewrite app_nil_r.
  - destruct (current_partition (check t)) as [p|]; [|done].
    cbn [getattr mbind result_bind].
    match goal with
    | |- context [perf_items _ ?b] =>
        assert (∃ hdr, b = report_body st ++ hdr ∧
                  ("      * num_tasks: " +:+ pretty (num_tasks (check t))) ∈ hdr)
          as (hdr & Hb & Hhdr)
    end.
    { destruct (negb (String.eqb (name (check t)) (previous_name st))); simpl;
        destruct (negb (String.eqb (fullname p) _)); simpl;
        rewrite <- ?app_assoc; eexists; (split; [reflexivity|]); set_solver. }
    rewrite Hb. clear Hb.
    destruct (perf_items (kr :: items) (report_body st ++ hdr)) as [out|] eqn:Hitems;
      [|done].
    simpl. intros [= <-]. simpl.
    apply perf_items_inv in Hitems as (lines & -> & Hlines).
    exists (hdr ++ lines). split; [by rewrite app_assoc|].
    intros _. split; [set_solver|].
    intros key ref Hk. rewrite Hpv in Hk.
    apply list_elem_of_lookup in Hk as [i Hi].
    destruct (Forall2_lookup_l _ _ _ _ _ Hlines Hi) as (line & Hline & Hperf).
    exists line. split; [done|].
    apply elem_of_app. right. by eapply list_elem_of_lookup_2.
Qed.

Lemma perf_tasks_inv ts st st' :
  perf_tasks ts st = Ok st' →
  ∃ lines, report_body st' = report_body st ++ lines ∧
           ∀ t, t ∈ ts → perfvalues (check t) ≠ [] → perf_lines_in t lines.
Proof.
  revert st. induction ts as [|t ts IH]; intros st; simpl.
  - intros [= <-]. exists []. split; [by rewrite app_nil_r|].
    intros t Ht. by apply elem_of_nil in Ht.
  - destruct (perf_task t st) as [st1|] eqn:Ht; [|done]. simpl.
    apply perf_task_inv in Ht as (l1 & Hl1 & Hin1).
    intros (l2 & Hl2 & Hin2)%IH.
    exists (l1 ++ l2). split; [by rewrite Hl2, Hl1, app_assoc|].
    intros u [->|Hu]%elem_of_cons Hpv.
    + rewrite <- (app_nil_l (l1 ++ l2)). by apply perf_lines_in_mono, Hin1.
    + rewrite <- (app_nil_r l2). by apply perf_lines_in_mono, Hin2.
Qed.

(** C4, the code at the failing inputs: a task with performance values and
    no partition makes the performance report raise [AttributeError], and a
    task with a job and no partition makes the projector raise it; the
    retry report, the failure statistics and the projector without a job
    render the absent partition. *)
Theorem performance_report_absent_partition :
  performance_report {| _alltasks := [[perf_task_on "bw" None]] |}
  = Raise (AttributeError "fullname") ∧
  json strict_format 0 {| _alltasks := [[job_task_without_partition "t1"]] |}
  = Raise (AttributeError "scheduler") ∧
  raises (retry_report 1 {| _alltasks := [[]; [perf_task_on "bw" None]] |}) = false ∧
  raises (json strict_format 0 {| _alltasks := [[perf_task_on "bw" None]] |}) = false ∧
  raises (failure_stats 0 {| _alltasks := [[perf_task_on "bw" None]] |}) = false.
Proof. repeat split; vm_compute; reflexivity. Qed.

(** * Further properties of the store *)

(** X1.  A negative run index names the same run as that index plus the
    number of runs; in particular the default [tasks()] is the last run,
    and on a store without runs it raises [StatisticsError]. *)
Theorem tasks_negative_index (self : TestStats) (run : Z) :
  let n := Z.of_nat (length (_alltasks self)) in
  (- n <= run < 0 → tasks self run = tasks self (run + n)) ∧
  tasks self (-1) =
    match last (_alltasks self) with
    | Some ts => Ok ts
    | None => Raise (StatisticsError "no such run: -1")
    end.
Proof.
  intros n. subst n. split.
  - intros Hr.
    destruct (py_index_in_range (_alltasks self) run) as (x & Hx & Hlx); [lia|].
    destruct (py_index_in_range (_alltasks self)
                (run + Z.of_nat (length (_alltasks self))))
      as (y & Hy & Hly); [lia|].
    replace (run + Z.of_nat (length (_alltasks self)))
      with (run + 1 * Z.of_nat (length (_alltasks self))) in Hly by lia.
    rewrite Z_mod_plus_full in Hly.
    unfold tasks. rewrite Hx, Hy. congruence.
  - destruct (_alltasks self) as [|r0 rs] eqn:Hruns using rev_ind.
    + destruct self as [runs]. simpl in Hruns. subst runs. reflexivity.
    + clear IHrs. destruct self as [runs]. simpl in Hruns. subst runs.
      rewrite last_snoc. unfold tasks. simpl. by rewrite py_index_last.
Qed.

Lemma tasks_negative_index_witness :
  tasks {| _alltasks := [[passed_task "t1"]; []; [passed_task "t2"]] |} (-3)
  = tasks {| _alltasks := [[passed_task "t1"]; []; [passed_task "t2"]] |} 0.
Proof.
  apply (tasks_negative_index
           {| _alltasks := [[passed_task "t1"]; []; [passed_task "t2"]] |} (-3)).
  simpl. lia.
Defined.

(** What a call with a non-negative current run index does to the list of
    runs. *)
Lemma add_task_nonneg (current_run : Z) (self self' : TestStats) (task : Task) :
  0 <= current_run →
  add_task current_run self task = Ok self' →
  (current_run = Z.of_nat (length (_alltasks self)) ∧
   _alltasks self' = _alltasks self ++ [[task]]) ∨
  (current_run < Z.of_nat (length (_alltasks self)) ∧
   ∃ ts, _alltasks self !! Z.to_nat current_run = Some ts ∧
         _alltasks self' = <[Z.to_nat current_run := ts ++ [task]]> (_alltasks self)).
Proof.
  intros Hnn. unfold add_task. destruct self as [runs]. simpl.
  destruct (Z.eqb_spec current_run (Z.of_nat (length runs))) as [->|Hne].
  - rewrite (py_index_nat (runs ++ [[]]) (length runs) [])
      by (by apply list_lookup_middle).
    simpl. intros [= <-]. left. split; [done|]. simpl.
    unfold norm_index. destruct (Z.ltb_spec (Z.of_nat (length runs)) 0); [lia|].
    rewrite Nat2Z.id.
    replace (length runs) with (length runs + 0)%nat at 1 by lia.
    by rewrite insert_app_r.
  - destruct (py_index runs current_run) as [ts|] eqn:Hts; [|done].
    apply py_index_Ok in Hts as [Hr Hts].
    simpl. intros [= <-]. right. simpl.
    unfold norm_index in *. destruct (Z.ltb_spec current_run 0); [lia|].
    split; [lia|]. by exists ts.
Qed.

(** X2.  [add_task] returns exactly when the current run index is between
    minus the number of runs and the number of runs; for any other index it
    raises [IndexError]: a current run that has advanced by more than one
    past the last run is not supported. *)
Theorem add_task_returns_iff (current_run : Z) (self : TestStats) (task : Task) :
  let n := Z.of_nat (length (_alltasks self)) in
  (raises (add_task current_run self task) = false ↔ - n <= current_run <= n) ∧
  (raises (add_task current_run self task) = true →
   add_task current_run self task = Raise IndexError).
Proof.
  intros n. subst n.
  destruct (decide (- Z.of_nat (length (_alltasks self)) <= current_run
                    <= Z.of_nat (length (_alltasks self)))) as [Hin|Hout].
  - assert (raises (add_task current_run self task) = false) as Hok.
    { unfold add_task.
      destruct (Z.eqb_spec current_run (Z.of_nat (length (_alltasks self))))
        as [->|Hne].
      - by rewrite (py_index_nat (_alltasks self ++ [[]])
                      (length (_alltasks self)) [])
          by (by apply list_lookup_middle).
      - destruct (py_index_in_range (_alltasks self) current_run)
          as (ts & -> & _); [lia|done]. }
    rewrite Hok. split; [done|]. intros [=].
  - rewrite add_task_out_of_range by lia. simpl. split; [|done].
    split; [intros [=]|intros ?; lia].
Qed.

Lemma add_task_length (current_run : Z) (self self' : TestStats) (task : Task) :
  add_task current_run self task = Ok self' →
  (length (_alltasks self) ≤ length (_alltasks self') ≤ S (length (_alltasks self)))%nat.
Proof.
  unfold add_task.
  destruct (Z.eqb_spec current_run (Z.of_nat (length (_alltasks self))));
    destruct (py_index _ current_run); simpl; try done;
    intros [= <-]; simpl; rewrite length_insert, ?length_app; simpl; lia.
Qed.

(** X3.  A store that starts as [TestStats()] and is only changed by calls
    of [add_task] that return always has at least one run, and at most one
    more run than tasks were added; so the default [tasks()] never raises
    on it. *)
Theorem add_tasks_keeps_a_run (calls : list (Z * Task)) (self' : TestStats) :
  add_tasks calls init = Ok self' →
  (1 ≤ length (_alltasks self') ≤ 1 + length calls)%nat ∧
  ∃ ts, tasks self' (-1) = Ok ts.
Proof.
  intros Hcalls.
  assert (∀ self, add_tasks calls self = Ok self' →
            (length (_alltasks self) ≤ length (_alltasks self')
             ≤ length (_alltasks self) + length calls)%nat) as Hlen.
  { clear Hcalls. induction calls as [|[cur t] calls IH]; intros self; simpl.
    - intros [= <-]. lia.
    - destruct (add_task cur self t) as [s1|] eqn:Hs1; [|done]. simpl.
      intros Hrest%IH. apply add_task_length in Hs1. lia. }
  specialize (Hlen init Hcalls). simpl in Hlen. split; [lia|].
  destruct (py_index_in_range (_alltasks self') (-1)) as (ts & Hts & _); [lia|].
  exists ts. unfold tasks. by rewrite Hts.
Qed.

Lemma add_tasks_keeps_a_run_witness :
  ∃ ts, tasks {| _alltasks := [[failed_task "t1" "sanity"]; [passed_task "t1"]] |} (-1)
        = Ok ts.
Proof.
  apply (add_tasks_keeps_a_run
           [(0, failed_task "t1" "sanity"); (1, passed_task "t1")]).
  reflexivity.
Defined.

Lemma add_tasks_lookup (calls : list (Z * Task)) (self self' : TestStats)
    (run : nat) :
  Forall (λ c, 0 <= c.1) calls →
  add_tasks calls self = Ok self' →
  (run < length (_alltasks self'))%nat →
  _alltasks self' !! run
  = Some (default [] (_alltasks self !! run) ++ added_in_run run calls).
Proof.
  intros Hnn. revert self.
  induction Hnn as [|[cur t] calls Hcur _ IH]; intros self; simpl.
  - intros [= <-] Hrun. unfold added_in_run. simpl. rewrite app_nil_r.
    apply lookup_lt_is_Some_2 in Hrun as [ts ->]. done.
  - destruct (add_task cur self t) as [s1|] eqn:Hs1; [|done]. simpl.
    intros Hrest Hrun. rewrite (IH s1 Hrest Hrun). f_equal.
    unfold added_in_run. rewrite filter_cons. simpl in Hcur.
    destruct (add_task_nonneg _ _ _ _ Hcur Hs1)
      as [[-> ->]|(Hlt & ts & Hts & ->)].
    + destruct (decide (run = length (_alltasks self))) as [->|Hne].
      * rewrite list_lookup_middle by done.
        rewrite (lookup_ge_None_2 (_alltasks self)) by lia.
        rewrite decide_True by done. done.
      * rewrite decide_False by (simpl; lia).
        destruct (decide (run < length (_alltasks self))%nat).
        -- by rewrite lookup_app_l by done.
        -- rewrite !lookup_ge_None_2; [done|lia|].
           rewrite length_app. simpl. lia.
    + destruct (decide (run = Z.to_nat cur)) as [->|Hne].
      * rewrite list_lookup_insert_eq by lia. rewrite Hts.
        rewrite decide_True by (simpl; lia). simpl. by rewrite <- app_assoc.
      * rewrite list_lookup_insert_ne by done.
        rewrite decide_False by (simpl; lia). done.
Qed.

(** X4.  After a session of [add_task] calls on a new store, all with
    non-negative current run indices, every existing run holds exactly the
    tasks added while it was the current run, in the order of the calls:
    [tasks] returns them, [num_cases] is their number and [failures]
    returns the failed ones among them. *)
Theorem add_tasks_then_lookup (calls : list (Z * Task)) (self' : TestStats)
    (run : nat) :
  Forall (λ c, 0 <= c.1) calls →
  add_tasks calls init = Ok self' →
  (run < length (_alltasks self'))%nat →
  tasks self' (Z.of_nat run) = Ok (added_in_run run calls) ∧
  num_cases self' (Z.of_nat run)
  = Ok (Z.of_nat (length (added_in_run run calls))) ∧
  failures self' (Z.of_nat run)
  = Ok (List.filter failed (added_in_run run calls)).
Proof.
  intros Hnn Hcalls Hrun.
  pose proof (add_tasks_lookup calls init self' run Hnn Hcalls Hrun) as Hl.
  assert (default [] (_alltasks init !! run) = []) as Hinit
    by (by destruct run as [|[|?]]).
  rewrite Hinit in Hl. simpl in Hl.
  apply tasks_nat in Hl.
  unfold num_cases, failures. rewrite Hl. done.
Qed.

Lemma add_tasks_then_lookup_witness :
  tasks {| _alltasks := [[failed_task "t1" "sanity"; passed_task "t2"];
                         [passed_task "t1"]] |} 0
  = Ok [failed_task "t1" "sanity"; passed_task "t2"].
Proof.
  apply (add_tasks_then_lookup
           [(0, failed_task "t1" "sanity"); (0, passed_task "t2");
            (1, passed_task "t1")]
           {| _alltasks := [[failed_task "t1" "sanity"; passed_task "t2"];
                            [passed_task "t1"]] |} 0).
  - repeat constructor; simpl; lia.
  - reflexivity.
  - simpl. lia.
Defined.

Lemma add_task_returns_iff_witness :
  add_task 2 init (passed_task "t1") = Raise IndexError.
Proof.
  apply (add_task_returns_iff 2 init (passed_task "t1")). reflexivity.
Defined.

(** * Further properties of the retry report *)

(** X5.  The retry report never reads run 0, and of the current run index
    only whether it is zero: two stores that differ in their first run
    only, read with any two non-zero current run indices, give the same
    report.  The report covers every run from 1 to the last one. *)
Theorem retry_report_ignores_first_run (current_run current_run' : Z)
    (run0 run0' : list Task) (rest : list (list Task)) :
  current_run ≠ 0 → current_run' ≠ 0 →
  retry_report current_run {| _alltasks := run0 :: rest |}
  = retry_report current_run' {| _alltasks := run0' :: rest |}.
Proof.
  intros Hc Hc'. by rewrite !retry_report_messages by done.
Qed.

Lemma retry_report_ignores_first_run_witness :
  retry_report 1 {| _alltasks := [[failed_task "t1" "sanity"]; [passed_task "t1"]] |}
  = retry_report 7 {| _alltasks := [[]; [passed_task "t1"]] |}.
Proof.
  apply (retry_report_ignores_first_run 1 7
           [failed_task "t1" "sanity"] [] [[passed_task "t1"]]); lia.
Defined.

Lemma retry_tasks_loop_dom run (ts : list Task) (m : gmap string string) :
  dom (retry_tasks_loop run ts m) = dom m ∪ list_to_set (retry_key <$> ts).
Proof.
  revert m. induction ts as [|t ts IH]; intros m.
  - simpl. set_solver.
  - change (retry_tasks_loop run (t :: ts) m)
      with (retry_tasks_loop run ts (<[retry_key t := retry_message t run]> m)).
    rewrite IH, dom_insert_L. set_solver.
Qed.

Lemma retry_fold_dom run (runs : list (list Task)) (m : gmap string string) :
  dom (retry_fold run runs m) = dom m ∪ list_to_set (retry_key <$> concat runs).
Proof.
  revert run m. induction runs as [|ts runs IH]; intros run m; simpl.
  - set_solver.
  - rewrite IH, retry_tasks_loop_dom, fmap_app, list_to_set_app_L. set_solver.
Qed.

Lemma length_sorted_keys (m : gmap string string) :
  length (sorted_keys m) = size (dom m).
Proof.
  unfold sorted_keys. rewrite merge_sort_Permutation.
  by rewrite length_map, length_map_to_list, size_dom.
Qed.

(** X6.  A retry report (current run not 0) is always returned, and its
    body has exactly one line for each distinct key among the tasks of the
    runs after run 0. *)
Theorem retry_report_line_count (current_run : Z) (self : TestStats) :
  current_run ≠ 0 →
  ∃ body,
    retry_report current_run self = Ok (join nl (retry_banner ++ body)) ∧
    length body
    = size (list_to_set (retry_key <$> concat (drop 1 (_alltasks self)))
            : gset string).
Proof.
  intros Hc. eexists. split; [by apply retry_report_messages|].
  rewrite length_map, length_sorted_keys, retry_fold_dom, dom_empty_L.
  f_equal. set_solver.
Qed.

Lemma retry_report_line_count_witness :
  ∃ body,
    retry_report 2
      {| _alltasks := [[failed_task "t1" "sanity"; failed_task "t2" "sanity"];
                       [failed_task "t1" "sanity"; passed_task "t2"];
                       [passed_task "t1"]] |}
    = Ok (join nl (retry_banner ++ body)) ∧
    length body = 2%nat.
Proof.
  destruct (retry_report_line_count 2
    {| _alltasks := [[failed_task "t1" "sanity"; failed_task "t2" "sanity"];
                     [failed_task "t1" "sanity"; passed_task "t2"];
                     [passed_task "t1"]] |}) as (body & H1 & H2); [lia|].
  exists body. split; [exact H1|]. rewrite H2. vm_compute. reflexivity.
Defined.

(** * Further properties of the projector and of the failure report *)

Section ProjectorErrors.

Variable format_exception : ExcInfo → result string.

Implicit Types (t : Task) (ts : list Task) (r : Entry) (rs : list Entry).

Lemma json_runs_no_fault run_no runs records out :
  json_runs format_exception run_no runs records = Ok out →
  Forall (Forall (λ t, entry_faults format_exception t = false)) runs.
Proof.
  intros (per_run & _ & Hlen & Hall)%json_runs_inv.
  apply Forall_lookup. intros i ts Hts.
  destruct (lookup_lt_is_Some_2 per_run i) as [rs Hrs].
  { rewrite <- Hlen. by eapply lookup_lt_Some. }
  apply Forall_lookup. intros j t Ht.
  destruct (Forall2_lookup_l _ _ _ _ _ (Hall i ts rs Hts Hrs) Ht)
    as (r & _ & Hr).
  rewrite <- (json_entry_raises format_exception (run_no + i)), Hr. done.
Qed.

(** X7.  [json] returns exactly when no task of any run faults while it is
    projected, i.e. no task has a job without a partition and the formatter
    renders the exception information of every failed task that has some;
    and [failure_report] raises exactly when [json] does, so one such task
    in any run loses the failure report of the current run. *)
Theorem json_returns_iff (current_run : Z) (self : TestStats) :
  (raises (json format_exception current_run self) = false ↔
   Forall (Forall (λ t, entry_faults format_exception t = false))
          (_alltasks self)) ∧
  raises (failure_report format_exception current_run self)
  = raises (json format_exception current_run self).
Proof.
  split.
  - split.
    + unfold json.
      destruct (json_runs format_exception 0 (_alltasks self) []) eqn:Hj; [|done].
      intros _. by eapply json_runs_no_fault.
    + intros Hok. unfold json.
      by destruct (json_runs_total format_exception 0 (_alltasks self) [] Hok)
        as [out ->].
  - unfold failure_report.
    by destruct (json format_exception current_run self).
Qed.

Lemma json_entry_invariants run_no t r :
  json_entry format_exception run_no t = Ok r →
  (entry_result r = "fail" ∨ entry_result r = "success") ∧
  (is_Some (entry_scheduler r) →
   is_Some (entry_system r) ∧ is_Some (entry_job_stdout r) ∧
   is_Some (entry_job_stderr r)) ∧
  (entry_scheduler r = None →
   entry_jobid r = PyNone ∧ entry_nodelist r = [] ∧
   entry_job_stdout r = None ∧ entry_job_stderr r = None) ∧
  (is_Some (entry_build_stdout r) ↔ is_Some (entry_build_stderr r)) ∧
  (is_Some (entry_failing_reason r) →
   entry_result r = "fail" ∧ is_Some (entry_failing_phase r)).
Proof.
  unfold json_entry.
  destruct (job (check t)), (current_partition (check t)); simpl;
    destruct (_build_job (check t)), (failed t); simpl; try done;
    try (destruct (exc_info t); simpl; try done;
         try destruct (format_exception _) eqn:?; simpl; try done);
    intros [= <-]; simpl;
    repeat split; eauto; try done; by intros [? [=]].
Qed.

(** X8.  Every record that [json] returns satisfies: the result is "fail"
    or "success"; a record with a scheduler also has a system and both job
    output names, and one without scheduler has no job id, an empty node
    list and no job output names; the two build output names are present
    or absent together; a failing reason is present only in a "fail"
    record that also has the failing phase; and [run_no] is the index of
    an existing run. *)
Theorem json_record_invariants (current_run : Z) (self : TestStats) records :
  json format_exception current_run self = Ok records →
  Forall
    (λ r,
       (entry_result r = "fail" ∨ entry_result r = "success") ∧
       (is_Some (entry_scheduler r) →
        is_Some (entry_system r) ∧ is_Some (entry_job_stdout r) ∧
        is_Some (entry_job_stderr r)) ∧
       (entry_scheduler r = None →
        entry_jobid r = PyNone ∧ entry_nodelist r = [] ∧
        entry_job_stdout r = None ∧ entry_job_stderr r = None) ∧
       (is_Some (entry_build_stdout r) ↔ is_Some (entry_build_stderr r)) ∧
       (is_Some (entry_failing_reason r) →
        entry_result r = "fail" ∧ is_Some (entry_failing_phase r)) ∧
       0 <= entry_run_no r < Z.of_nat (length (_alltasks self)))
    records.
Proof.
  intros (per_run & -> & Hlen & Hall)%json_runs_inv. simpl.
  apply List.Forall_concat. apply Forall_lookup. intros i rs Hrs.
  destruct (lookup_lt_is_Some_2 (_alltasks self) i) as [ts Hts].
  { rewrite Hlen. by eapply lookup_lt_Some. }
  apply Forall_lookup. intros j r Hr.
  destruct (Forall2_lookup_r _ _ _ _ _ (Hall i ts rs Hts Hrs) Hr)
    as (t & _ & Ht). simpl in Ht.
  pose proof (json_entry_invariants _ _ _ Ht) as (H1 & H2 & H3 & H4 & H5).
  repeat (split; [done|]).
  rewrite (json_entry_run_no _ _ _ _ Ht).
  apply lookup_lt_Some in Hts. lia.
Qed.

(** The report is the banner, the blocks of the records and the closing
    line. *)
Lemma foldl_app_concat {A} (f : A → list string) (init : list string) (l : list A) :
  foldl (λ rep x, rep ++ f x) init l = init ++ concat (map f l).
Proof.
  revert init. induction l as [|x l IH]; intros init; simpl.
  - by rewrite app_nil_r.
  - by rewrite IH, <- app_assoc.
Qed.

Lemma failure_report_blocks (current_run : Z) (self : TestStats) records :
  json format_exception current_run self = Ok records →
  failure_report format_exception current_run self
  = Ok (join nl ([replicate_char 78 "="; "SUMMARY OF FAILURES"] ++
                 concat (map (failure_report_entry current_run) records) ++
                 [replicate_char 78 "-"])).
Proof.
  intros Hj. unfold failure_report. rewrite Hj. simpl.
  by rewrite foldl_app_concat, <- app_assoc.
Qed.

Lemma failure_report_entry_other_run (last_run : Z) r :
  entry_run_no r ≠ last_run → failure_report_entry last_run r = [].
Proof.
  intros Hne. unfold failure_report_entry.
  destruct (Z.eqb_spec (entry_run_no r) last_run); [done|].
  by rewrite orb_true_r.
Qed.

Lemma concat_map_concat_one {A} (g : A → list string) (ls : list (list A))
    (c : nat) :
  (∀ i l, ls !! i = Some l → i ≠ c → concat (map g l) = []) →
  concat (map g (concat ls)) = concat (map g (default [] (ls !! c))).
Proof.
  revert c. induction ls as [|l ls IH]; intros c Hother; [by destruct c|].
  simpl. rewrite map_app, concat_app.
  destruct c as [|c]; simpl.
  - rewrite (IH (length ls)).
    + rewrite (lookup_ge_None_2 ls (length ls)) by lia. simpl.
      by rewrite app_nil_r.
    + intros i l' Hi _. by apply (Hother (S i) l').
  - rewrite (Hother 0%nat l) by done. simpl.
    apply IH. intros i l' Hi Hne. apply (Hother (S i) l'); [done|lia].
Qed.

Lemma run_skipped (last_run : Z) (c : nat) ts rs :
  Forall2 (λ t r, json_entry format_exception c t = Ok r) ts rs →
  Z.of_nat c ≠ last_run →
  concat (map (failure_report_entry last_run) rs) = [].
Proof.
  intros Hrs Hne. induction Hrs as [|t r ts rs Hr _ IH]; [done|].
  simpl. rewrite IH, app_nil_r.
  apply failure_report_entry_other_run.
  by rewrite (json_entry_run_no _ _ _ _ Hr).
Qed.

Lemma run_blocks (c : nat) ts rs :
  Forall2 (λ t r, json_entry format_exception c t = Ok r) ts rs →
  ∃ blocks,
    concat (map (failure_report_entry (Z.of_nat c)) rs) = concat blocks ∧
    Forall2 (λ t b, ∃ r, json_entry format_exception c t = Ok r ∧
                         b = failure_report_entry (Z.of_nat c) r ∧
                         length b = 13%nat)
            (List.filter failed ts) blocks.
Proof.
  induction 1 as [|t r ts rs Hr _ (blocks & Hblocks & Hall)]; simpl.
  - exists []. split; [done|constructor].
  - pose proof (json_entry_outcome _ _ _ _ Hr) as Hout.
    pose proof (json_entry_run_no _ _ _ _ Hr) as Hno.
    destruct (failed t).
    + destruct Hout as (Hres & _).
      exists (failure_report_entry (Z.of_nat c) r :: blocks).
      split; [simpl; by rewrite Hblocks|].
      constructor; [|done]. exists r. split; [done|]. split; [done|].
      unfold failure_report_entry.
      by rewrite Hres, Hno, Z.eqb_refl.
    + destruct Hout as (Hres & _).
      exists blocks. split; [|done].
      unfold failure_report_entry at 1. by rewrite Hres.
Qed.

(** X9.  When [json] returns and the current run index is non-negative,
    the failure report consists of the banner, one block of 13 lines for
    each task that [failures(current_run)] returns, in the same order, the
    block being the rendering of the record of that task, and the closing
    line: passed tasks and tasks of other runs add nothing. *)
Theorem failure_report_lists_failures (current_run : Z) (self : TestStats)
    records fs :
  json format_exception current_run self = Ok records →
  0 <= current_run →
  failures self current_run = Ok fs →
  ∃ blocks,
    failure_report format_exception current_run self
    = Ok (join nl ([replicate_char 78 "="; "SUMMARY OF FAILURES"] ++
                   concat blocks ++ [replicate_char 78 "-"])) ∧
    Forall2 (λ t b, ∃ r, json_entry format_exception (Z.to_nat current_run) t = Ok r ∧
                         b = failure_report_entry current_run r ∧
                         length b = 13%nat)
            fs blocks.
Proof.
  intros Hj Hnn Hfs.
  rewrite (failure_report_blocks _ _ _ Hj).
  apply json_runs_inv in Hj as (per_run & -> & Hlen & Hall). simpl.
  unfold failures, tasks in Hfs.
  destruct (py_index (_alltasks self) current_run) as [ts|[]] eqn:Hts;
    simpl in Hfs; try done.
  injection Hfs as <-.
  apply py_index_Ok in Hts as [Hr Hts].
  unfold norm_index in Hts. destruct (Z.ltb_spec current_run 0); [lia|].
  destruct (lookup_lt_is_Some_2 per_run (Z.to_nat current_run)) as [rs Hrs].
  { rewrite <- Hlen. by eapply lookup_lt_Some. }
  pose proof (Hall _ _ _ Hts Hrs) as Hrun. simpl in Hrun.
  destruct (run_blocks _ _ _ Hrun) as (blocks & Hblocks & Hbl).
  rewrite Z2Nat.id in Hblocks, Hbl by done.
  exists blocks. split; [|done].
  rewrite (concat_map_concat_one _ per_run (Z.to_nat current_run)).
  - by rewrite Hrs, <- Hblocks.
  - intros i rs' Hrs' Hne.
    destruct (lookup_lt_is_Some_2 (_alltasks self) i) as [ts' Hts'].
    { rewrite Hlen. by eapply lookup_lt_Some. }
    eapply run_skipped; [exact (Hall _ _ _ Hts' Hrs')|]. lia.
Qed.

(** X10.  When [json] returns and the current run index is negative or not
    smaller than the number of runs, the failure report is the banner and
    the closing line only: unlike [tasks] and [failures], the report does
    not read a negative index from the end. *)
Theorem failure_report_no_such_run (current_run : Z) (self : TestStats) records :
  json format_exception current_run self = Ok records →
  current_run < 0 ∨ Z.of_nat (length (_alltasks self)) <= current_run →
  failure_report format_exception current_run self
  = Ok (join nl [replicate_char 78 "="; "SUMMARY OF FAILURES";
                 replicate_char 78 "-"]).
Proof.
  intros Hj Hout.
  rewrite (failure_report_blocks _ _ _ Hj).
  apply json_runs_inv in Hj as (per_run & -> & Hlen & Hall). simpl.
  rewrite (concat_map_concat_one _ per_run (length per_run)).
  - by rewrite (lookup_ge_None_2 per_run (length per_run)) by lia.
  - intros i rs' Hrs' _.
    destruct (lookup_lt_is_Some_2 (_alltasks self) i) as [ts' Hts'].
    { rewrite Hlen. by eapply lookup_lt_Some. }
    eapply run_skipped; [exact (Hall _ _ _ Hts' Hrs')|].
    apply lookup_lt_Some in Hts'. lia.
Qed.

End ProjectorErrors.

Lemma json_returns_iff_witness :
  raises (json strict_format 0
            {| _alltasks := [[passed_task "t1"; failed_task "t2" "sanity"]] |})
  = false.
Proof.
  apply (proj2 (proj1 (json_returns_iff strict_format 0
           {| _alltasks := [[passed_task "t1"; failed_task "t2" "sanity"]] |}))).
  repeat constructor.
Defined.

Lemma json_record_invariants_witness :
  Forall (λ r, 0 <= entry_run_no r < 2)
    (match json strict_format 1
             {| _alltasks := [[failed_task "t1" "sanity"]; [passed_task "t1"]] |} with
     | Ok records => records
     | Raise _ => []
     end).
Proof.
  eapply Forall_impl.
  - apply (json_record_invariants strict_format 1
             {| _alltasks := [[failed_task "t1" "sanity"]; [passed_task "t1"]] |}).
    reflexivity.
  - simpl. intros r (_ & _ & _ & _ & _ & H). exact H.
Defined.

Lemma failure_report_lists_failures_witness :
  ∃ blocks,
    failure_report strict_format 1
      {| _alltasks := [[failed_task "t1" "sanity"; failed_task "t2" "sanity"];
                       [passed_task "t1"; failed_task "t2" "performance"]] |}
    = Ok (join nl ([replicate_char 78 "="; "SUMMARY OF FAILURES"] ++
                   concat blocks ++ [replicate_char 78 "-"])) ∧
    length blocks = 1%nat.
Proof.
  destruct (failure_report_lists_failures strict_format 1
    {| _alltasks := [[failed_task "t1" "sanity"; failed_task "t2" "sanity"];
                     [passed_task "t1"; failed_task "t2" "performance"]] |}
    _ [failed_task "t2" "performance"] eq_refl) as (blocks & H1 & H2).
  - lia.
  - reflexivity.
  - exists blocks. split; [exact H1|].
    symmetry. exact (Forall2_length _ _ _ H2).
Defined.

Lemma failure_report_no_such_run_witness :
  failure_report strict_format (-1)
    {| _alltasks := [[failed_task "t1" "sanity"]] |}
  = Ok (join nl [replicate_char 78 "="; "SUMMARY OF FAILURES";
                 replicate_char 78 "-"]).
Proof.
  apply (failure_report_no_such_run strict_format (-1)
           {| _alltasks := [[failed_task "t1" "sanity"]] |} _ eq_refl).
  left. lia.
Defined.

(** * Further properties of the failure statistics *)

Section FailureGroups.

Implicit Types (d : list (string * list string)) (fts : list Task).

Lemma failures_append_keys stage f d :
  (failures_append stage f d).*1
  = if decide (stage ∈ d.*1) then d.*1 else d.*1 ++ [stage].
Proof.
  induction d as [|[p l] d IH].
  - destruct (decide (stage ∈ ([] : list (string * list string)).*1))
      as [Hin|_]; [by apply elem_of_nil in Hin|done].
  - cbn [failures_append]. destruct (String.eqb_spec p stage) as [->|Hne].
    + rewrite decide_True; [done|]. rewrite fmap_cons. left.
    + rewrite !fmap_cons, IH. cbn [fst].
      destruct (decide (stage ∈ d.*1)) as [Hin|Hnotin].
      * rewrite decide_True; [done|]. by right.
      * rewrite decide_False; [done|].
        intros [?|?]%elem_of_cons; [congruence|done].
Qed.

(** Read as a dictionary, the appended list is the old dictionary with the
    label added at the end of the entry of the stage. *)
Lemma failures_append_lookup stage f d :
  (list_to_map (failures_append stage f d) : gmap string (list string))
  = <[stage := default [] ((list_to_map d : gmap string (list string)) !! stage)
               ++ [f]]> (list_to_map d).
Proof.
  induction d as [|[p l] d IH]; simpl; [done|].
  destruct (String.eqb_spec p stage) as [->|Hne]; simpl.
  - by rewrite lookup_insert_eq, insert_insert_eq.
  - rewrite IH, lookup_insert_ne by done.
    by rewrite insert_insert_ne.
Qed.

Lemma failures_append_total stage f d :
  sum_list_with length (failures_append stage f d).*2
  = S (sum_list_with length d.*2).
Proof.
  induction d as [|[p l] d IH]; [done|].
  cbn [failures_append]. destruct (String.eqb p stage); csimpl.
  - rewrite length_app. simpl. lia.
  - rewrite IH. lia.
Qed.

Lemma failures_append_nonempty stage f d :
  Forall (λ kv, kv.2 ≠ []) d →
  Forall (λ kv, kv.2 ≠ []) (failures_append stage f d).
Proof.
  induction 1 as [|[p l] d Hl Hd IH]; simpl.
  - constructor; [done|constructor].
  - destruct (String.eqb p stage); constructor; simpl; try done.
    by destruct l.
Qed.

Lemma group_failures_snoc fts t :
  group_failures (fts ++ [t])
  = failures_append (failed_stage t) (failure_label t) (group_failures fts).
Proof. unfold group_failures. by rewrite foldl_snoc. Qed.

Lemma group_failures_keys fts :
  (group_failures fts).*1 = reverse (remove_dups (reverse (failed_stage <$> fts))).
Proof.
  induction fts as [|t fts IH] using rev_ind; [done|].
  rewrite group_failures_snoc, failures_append_keys, IH.
  rewrite fmap_app. change (failed_stage <$> [t]) with [failed_stage t].
  rewrite reverse_snoc. cbn [remove_dups].
  destruct (decide_rel elem_of (failed_stage t) (reverse (failed_stage <$> fts)))
    as [Hin|Hnotin].
  - rewrite decide_True; [done|].
    by rewrite elem_of_reverse, elem_of_remove_dups.
  - rewrite decide_False.
    + by rewrite reverse_cons.
    + by rewrite elem_of_reverse, elem_of_remove_dups.
Qed.

Lemma group_failures_lookup fts stage :
  (list_to_map (group_failures fts) : gmap string (list string)) !! stage
  = match failure_label <$> filter (λ t, failed_stage t = stage) fts with
    | [] => None
    | labels => Some labels
    end.
Proof.
  induction fts as [|t fts IH] using rev_ind; [done|].
  rewrite group_failures_snoc, failures_append_lookup.
  rewrite filter_app, fmap_app, filter_cons, filter_nil.
  destruct (decide (failed_stage t = stage)) as [->|Hne].
  - rewrite lookup_insert_eq, IH. simpl.
    by destruct (failure_label <$> filter _ fts).
  - rewrite lookup_insert_ne, IH by done. simpl. by rewrite app_nil_r.
Qed.

Lemma group_failures_invariant fts :
  Forall (λ kv, kv.2 ≠ []) (group_failures fts) ∧
  sum_list_with length (group_failures fts).*2 = length fts.
Proof.
  induction fts as [|t fts [IH1 IH2]] using rev_ind.
  - split; [constructor|done].
  - rewrite group_failures_snoc. split.
    + by apply failures_append_nonempty.
    + rewrite failures_append_total, IH2, length_app. simpl. lia.
Qed.

(** X12.  The dictionary that [failure_stats] builds from the failed tasks
    lists each failing stage once, in the order in which the stages first
    occur; and it maps a stage to the labels of the failed tasks of that
    stage, in the order of the tasks, a stage without failed task having no
    entry. *)
Theorem group_failures_groups_by_stage (fts : list Task) :
  (group_failures fts).*1
  = reverse (remove_dups (reverse (failed_stage <$> fts))) ∧
  NoDup (group_failures fts).*1 ∧
  ∀ stage labels,
    (stage, labels) ∈ group_failures fts ↔
    labels ≠ [] ∧
    labels = failure_label <$> filter (λ t, failed_stage t = stage) fts.
Proof.
  assert (NoDup (group_failures fts).*1) as Hnd.
  { rewrite group_failures_keys, reverse_Permutation.
    apply NoDup_remove_dups. }
  split; [apply group_failures_keys|]. split; [done|].
  intros stage labels.
  rewrite (elem_of_list_to_map (M := gmap string)) by done.
  rewrite group_failures_lookup.
  destruct (failure_label <$> filter _ fts) as [|l ls] eqn:Hl.
  - split; [done|]. intros [? ->]. done.
  - split; [by intros [= <-]|]. by intros [_ ->].
Qed.

Lemma foldl_sum_lengths (a : Z) (ls : list (list string)) :
  foldl (λ n l, n + Z.of_nat (length l)) a ls
  = a + Z.of_nat (sum_list_with length ls).
Proof.
  revert a. induction ls as [|l ls IH]; intros a; simpl; [lia|].
  rewrite IH. lia.
Qed.

Lemma stats_items_rows d :
  Forall (λ kv, kv.2 ≠ []) d →
  ∃ rows, (∀ stats_body, stats_items d stats_body = Ok (stats_body ++ rows)) ∧
          length rows = sum_list_with length d.*2.
Proof.
  induction 1 as [|[p l] d Hl _ (rows & Hrows & Hlen)].
  - exists []. split; [|done]. intros stats_body. simpl. by rewrite app_nil_r.
  - destruct l as [|f l]; [done|].
    exists (row_format p (pretty (Z.of_nat (length (f :: l)))) f
            :: map (λ f0, row_format "" "" f0) l ++ rows).
    split.
    + intros stats_body. cbn [stats_items]. unfold stats_rows.
      change (py_index (f :: l) 0) with (Ok (A := string) f).
      cbn [mbind result_bind]. change (drop 1 (f :: l)) with l.
      by rewrite Hrows, <- app_assoc.
    + cbn [length]. rewrite length_app, length_map, Hlen. reflexivity.
Qed.

End FailureGroups.

(** X11.  [failure_stats] raises exactly what the lookup of the current
    run raises, and nothing else.  When the run exists the report is the
    banner, the number of tasks of the run, the number of its failed tasks,
    the table header, one table row per failed task, built from the
    dictionary of the failed tasks, and the closing line. *)
Theorem failure_stats_totals (current_run : Z) (self : TestStats) :
  match tasks self current_run with
  | Ok ts =>
      ∃ rows,
        failure_stats current_run self
        = Ok (join nl
                ([ replicate_char 78 "="; "FAILURE STATISTICS"; "";
                   "Total number of test cases: " +:+ pretty (Z.of_nat (length ts));
                   "Total number of failures: " +:+
                     pretty (Z.of_nat (length (List.filter failed ts)));
                   "";
                   row_format "Phase" "#" "Failing test cases";
                   row_format (replicate_char 13 "-") (replicate_char 5 "-")
                              (replicate_char 60 "-") ] ++
                 rows ++ [replicate_char 78 "-"])) ∧
        stats_items (group_failures (List.filter failed ts)) [] = Ok rows ∧
        length rows = length (List.filter failed ts)
  | Raise e => failure_stats current_run self = Raise e
  end.
Proof.
  unfold failure_stats.
  destruct (tasks self current_run) as [ts|e]; [|done].
  cbn [mbind result_bind].
  fold (group_failures (List.filter failed ts)).
  destruct (group_failures_invariant (List.filter failed ts)) as [Hne Hsum].
  destruct (stats_items_rows _ Hne) as (rows & Hrows & Hlen).
  rewrite foldl_sum_lengths.
  change (map snd (group_failures (List.filter failed ts)))
    with (group_failures (List.filter failed ts)).*2.
  rewrite Hsum, Hrows. cbn [mbind result_bind].
  exists rows. split; [|split].
  - cbn [app]. do 3 f_equal.
  - rewrite (Hrows []). done.
  - by rewrite Hlen.
Qed.

Lemma failure_stats_totals_witness :
  ∃ rows,
    stats_items
      (group_failures
         (List.filter failed
            [failed_task "t1" "sanity"; passed_task "t2";
             failed_task "t3" "performance"; failed_task "t4" "sanity"])) []
    = Ok rows ∧
    length rows = 3%nat.
Proof.
  pose proof (failure_stats_totals 0
    {| _alltasks := [[failed_task "t1" "sanity"; passed_task "t2";
                      failed_task "t3" "performance"; failed_task "t4" "sanity"]] |})
    as H.
  simpl in H. destruct H as (rows & _ & H1 & H2).
  exists rows. split; [exact H1 | exact H2].
Defined.

Lemma group_failures_groups_by_stage_witness :
  (group_failures [failed_task "t1" "sanity"; failed_task "t3" "performance";
                   failed_task "t4" "sanity"]).*1
  = ["sanity"; "performance"].
Proof.
  rewrite (proj1 (group_failures_groups_by_stage
                    [failed_task "t1" "sanity"; failed_task "t3" "performance";
                     failed_task "t4" "sanity"])).
  vm_compute. reflexivity.
Defined.

(** * Further properties of the performance report *)

Lemma join_cons_char sep c w ws :
  join sep (String c w :: ws) = String c (join sep (w :: ws)).
Proof. by destruct ws. Qed.

Lemma split_on_join (sep : ascii) (s : string) :
  join (String sep "") (split_on sep s) = s ∧
  Forall (λ w, string_mem sep w = false) (split_on sep s) ∧
  split_on sep s ≠ [].
Proof.
  induction s as [|c s (IH1 & IH2 & IH3)]; simpl.
  - split; [done|]. split; [|done]. by constructor.
  - destruct (Ascii.eqb_spec c sep) as [->|Hne].
    + split; [|split; [|done]].
      * destruct (split_on sep s); [done|]. simpl in *. by rewrite IH1.
      * by constructor.
    + destruct (split_on sep s) as [|w ws]; [done|].
      split; [|split; [|done]].
      * by rewrite join_cons_char, IH1.
      * inversion IH2 as [|?? Hw Hws]; subst. constructor; [|done].
        simpl. rewrite Hw.
        destruct (Ascii.eqb_spec sep c); [congruence|done].
Qed.

Lemma perf_line_cases (key : string) (ref : list PyVal) :
  match ref with
  | [] => perf_line key ref = Raise IndexError
  | val :: _ =>
      ∃ pre var,
        split_on ":" key = pre ++ [var] ∧
        key = join ":" (pre ++ [var]) ∧
        string_mem ":" var = false ∧
        perf_line key ref
        = Ok ("      * " +:+ var +:+ ": " +:+ py_str val +:+ " " +:+
              match ref !! 4%nat with
              | Some u => py_str u
              | None => "(no unit specified)"
              end)
  end.
Proof.
  destruct (split_on_join ":" key) as (Hjoin & Hsep & Hne).
  destruct (split_on ":" key) as [|w ws] eqn:Hsplit using rev_ind; [done|].
  clear IHws. unfold perf_line. rewrite Hsplit, py_index_last.
  cbn [mbind result_bind].
  destruct ref as [|val ref]; [done|].
  exists ws, w. split; [done|]. split; [done|].
  split; [by apply Forall_app in Hsep as [_ [? _]%Forall_cons]|].
  change (py_index (val :: ref) 0) with (Ok (A := PyVal) val).
  cbn [mbind result_bind].
  destruct ref as [|r1 [|r2 [|r3 [|r4 ref]]]]; reflexivity.
Qed.

(** X13.  The line of a performance variable names the variable by the
    part of its key after the last colon (the whole key when it has no
    colon), followed by the first element of the reference tuple and by its
    fifth element, or by "(no unit specified)" when the tuple has fewer
    than five elements; only that last lookup is guarded: a reference tuple
    without elements raises [IndexError]. *)
Theorem perf_line_shape (key : string) (ref : list PyVal) :
  match ref with
  | [] => perf_line key ref = Raise IndexError
  | val :: _ =>
      ∃ pre var,
        key = join ":" (pre ++ [var]) ∧
        string_mem ":" var = false ∧
        perf_line key ref
        = Ok ("      * " +:+ var +:+ ": " +:+ py_str val +:+ " " +:+
              match ref !! 4%nat with
              | Some u => py_str u
              | None => "(no unit specified)"
              end)
  end.
Proof.
  pose proof (perf_line_cases key ref) as H.
  destruct ref; [done|].
  destruct H as (pre & var & _ & ? & ? & ?). by exists pre, var.
Qed.

Lemma perf_items_raises items body :
  raises (perf_items items body)
  = existsb (fun kr => match kr.2 with [] => true | _ :: _ => false end) items.
Proof.
  revert body. induction items as [|[key ref] items IH]; intros body; [done|].
  cbn [perf_items existsb snd].
  pose proof (perf_line_cases key ref) as H.
  destruct ref as [|val ref].
  - by rewrite H.
  - destruct H as (pre & var & _ & _ & _ & ->). cbn [mbind result_bind].
    by rewrite IH.
Qed.

Lemma perf_task_raises t st :
  raises (perf_task t st) = perf_task_faults t.
Proof.
  unfold perf_task, perf_task_faults.
  destruct (perfvalues (check t)) as [|kr items] eqn:Hpv; [done|].
  destruct (current_partition (check t)) as [p|]; [|done].
  cbn [getattr mbind result_bind].
  match goal with
  | |- context [perf_items ?i ?b] =>
      rewrite <- (perf_items_raises i b); by destruct (perf_items i b)
  end.
Qed.

Lemma perf_tasks_raises ts st :
  raises (perf_tasks ts st) = existsb perf_task_faults ts.
Proof.
  revert st. induction ts as [|t ts IH]; intros st; [done|].
  cbn [perf_tasks existsb]. rewrite <- (perf_task_raises t st).
  destruct (perf_task t st); [|done]. cbn [mbind result_bind raises orb].
  apply IH.
Qed.

(** One iteration appends the block of its task. *)
Lemma perf_task_block t st st' :
  perf_task t st = Ok st' →
  ∃ block, report_body st' = report_body st ++ block ∧ perf_block_of t block.
Proof.
  unfold perf_task, perf_block_of.
  destruct (perfvalues (check t)) as [|kr items] eqn:Hpv.
  - simpl. intros [= <-]. exists []. simpl. by rewrite app_nil_r.
  - destruct (current_partition (check t)) as [p|]; [|done].
    cbn [getattr mbind result_bind].
    match goal with
    | |- context [perf_items ?i ?b] =>
        destruct (perf_items i b) as [out|] eqn:Hitems; [|done]
    end.
    cbn [mbind result_bind]. intros [= <-]. simpl.
    apply perf_items_inv in Hitems as (lines & -> & Hlines).
    destruct (negb (String.eqb (name (check t)) (previous_name st))); simpl;
      match goal with
      | |- context [String.eqb (fullname p) ?x] =>
          destruct (negb (String.eqb (fullname p) x))
      end; simpl.
    + eexists. split; [|exists p, [replicate_char 78 "-"; name (check t)],
                               ["- " +:+ fullname p], lines; eauto 10].
      by rewrite <- !app_assoc.
    + eexists. split; [|exists p, [replicate_char 78 "-"; name (check t)],
                               [], lines; eauto 10].
      by rewrite <- !app_assoc.
    + eexists. split; [|exists p, [], ["- " +:+ fullname p], lines; eauto 10].
      by rewrite <- !app_assoc.
    + eexists. split; [|exists p, [], [], lines; eauto 10].
      by rewrite <- !app_assoc.
Qed.

(** The loop appends the blocks of the tasks, one after the other in the
    order of the tasks. *)
Lemma perf_tasks_blocks ts st st' :
  perf_tasks ts st = Ok st' →
  ∃ blocks, report_body st' = report_body st ++ concat blocks ∧
            Forall2 perf_block_of ts blocks.
Proof.
  revert st. induction ts as [|t ts IH]; intros st; simpl.
  - intros [= <-]. exists []. split; [by rewrite app_nil_r|constructor].
  - destruct (perf_task t st) as [st1|] eqn:Ht; [|done]. simpl.
    apply perf_task_block in Ht as (block & Hblock & Hof).
    intros (blocks & Hblocks & Hall)%IH.
    exists (block :: blocks). split; [|by constructor].
    simpl. by rewrite Hblocks, Hblock, app_assoc.
Qed.

(** C1, as the code has it.  The performance report reads [self.tasks()],
    the last run of the store: the earlier runs do not influence it.  It is
    returned whenever no task of the last run that has performance values
    lacks a partition or has a reference tuple without elements.  When it
    is returned its body is, task after task of the last run in arrival
    order, the block of lines of each task: nothing for a task without
    performance values, and for a task with performance values its headers
    (where written), its environment line, its [num_tasks] line and one
    line per performance value, in that order. *)
Theorem performance_report_last_run (earlier : list (list Task))
    (last : list Task) :
  performance_report {| _alltasks := earlier ++ [last] |}
  = performance_report {| _alltasks := [last] |} ∧
  (existsb perf_task_faults last = false →
   ∃ report,
     performance_report {| _alltasks := earlier ++ [last] |} = Ok report) ∧
  ∀ report,
    performance_report {| _alltasks := earlier ++ [last] |} = Ok report →
    ∃ blocks,
      Forall2 perf_block_of last blocks ∧
      report =
        match concat blocks with
        | [] => ""
        | _ :: _ =>
            join nl ([replicate_char 78 "="; "PERFORMANCE REPORT"] ++
                     concat blocks ++ [replicate_char 78 "-"])
        end.
Proof.
  assert (∀ runs, tasks {| _alltasks := runs ++ [last] |} (-1) = Ok last)
    as Htasks.
  { intros runs. unfold tasks. simpl. by rewrite py_index_last. }
  split; [|split].
  - unfold performance_report.
    rewrite (Htasks earlier). by rewrite <- (Htasks []).
  - intros Hok. unfold performance_report. rewrite Htasks.
    cbn [mbind result_bind].
    pose proof (perf_tasks_raises last
                  {| report_body := []; previous_name := "";
                     previous_part := "" |}) as Hr.
    rewrite Hok in Hr.
    destruct (perf_tasks last _) as [st|]; [|done]. cbn [mbind result_bind].
    destruct (report_body st); by eexists.
  - intros report. unfold performance_report. rewrite Htasks.
    cbn [mbind result_bind].
    destruct (perf_tasks last _) as [st|] eqn:Hst; [|done].
    cbn [mbind result_bind].
    apply perf_tasks_blocks in Hst as (blocks & Hbody & Hall).
    simpl in Hbody. rewrite Hbody.
    intros Hreport. exists blocks. split; [done|].
    by destruct (concat blocks); injection Hreport as <-.
Qed.

(** C1, counterexample to the claim as stated: a session adds a task with
    two performance values in run 0 and a task without performance values
    in run 1; the task of run 0 contributes nothing to the report, which is
    empty, although alone in the store it is reported. *)
Lemma performance_report_skips_earlier_runs :
  add_tasks [(0, perf_task_on "bw" (Some sample_partition));
             (1, passed_task "t1")] init
  = Ok {| _alltasks := [[perf_task_on "bw" (Some sample_partition)];
                        [passed_task "t1"]] |} ∧
  perf_task_on "bw" (Some sample_partition)
    ∈ concat [[perf_task_on "bw" (Some sample_partition)]; [passed_task "t1"]] ∧
  length (perfvalues (check (perf_task_on "bw" (Some sample_partition)))) = 2%nat ∧
  performance_report
    {| _alltasks := [[perf_task_on "bw" (Some sample_partition)];
                     [passed_task "t1"]] |}
  = Ok "" ∧
  contains "bandwidth"
    (match performance_report
             {| _alltasks := [[perf_task_on "bw" (Some sample_partition)]] |} with
     | Ok report => report
     | Raise _ => ""
     end) = true.
Proof.
  split; [reflexivity|].
  split; [simpl; left|].
  split; [reflexivity|].
  split; [reflexivity|].
  vm_compute. reflexivity.
Qed.

Lemma performance_report_last_run_witness :
  ∃ report blocks,
    performance_report
      {| _alltasks := [[perf_task_on "old" (Some sample_partition)]] ++
                      [[perf_task_on "bw" (Some sample_partition);
                        passed_task "t1";
                        perf_task_on "lat" (Some sample_partition)]] |}
    = Ok report ∧
    Forall2 perf_block_of
      [perf_task_on "bw" (Some sample_partition); passed_task "t1";
       perf_task_on "lat" (Some sample_partition)] blocks.
Proof.
  destruct (performance_report_last_run
              [[perf_task_on "old" (Some sample_partition)]]
              [perf_task_on "bw" (Some sample_partition); passed_task "t1";
               perf_task_on "lat" (Some sample_partition)]) as (_ & H1 & H2).
  destruct (H1 eq_refl) as [report Hreport].
  destruct (H2 report Hreport) as (blocks & Hblocks & _).
  exists report, blocks. split; [exact Hreport | exact Hblocks].
Defined.

(** X14.  The performance report raises exactly when some task of the last
    run that has performance values has no partition or has a reference
    tuple without elements; tasks without performance values and tasks of
    earlier runs never make it raise. *)
Theorem performance_report_raises_iff (earlier : list (list Task))
    (last : list Task) :
  raises (performance_report {| _alltasks := earlier ++ [last] |})
  = existsb perf_task_faults last.
Proof.
  unfold performance_report, tasks. simpl. rewrite py_index_last.
  cbn [mbind result_bind].
  rewrite <- (perf_tasks_raises last
                {| report_body := []; previous_name := ""; previous_part := "" |}).
  destruct (perf_tasks last _) as [st|]; [|done]. simpl.
  by destruct (report_body st).
Qed.

Lemma perf_tasks_no_values ts st :
  Forall (λ t, perfvalues (check t) = []) ts → perf_tasks ts st = Ok st.
Proof.
  intros Hts. revert st.
  induction Hts as [|t ts Ht _ IH]; intros [body pname ppart]; [done|].
  cbn [perf_tasks]. unfold perf_task. rewrite Ht. simpl. apply IH.
Qed.

(** X15.  The performance report is the empty string exactly when no task
    of the last run has a performance value: without performance values it
    is returned and empty, whatever else the tasks lack, and a returned
    report for a run with a performance value is not empty. *)
Theorem performance_report_empty_iff (earlier : list (list Task))
    (last : list Task) :
  (Forall (λ t, perfvalues (check t) = []) last →
   performance_report {| _alltasks := earlier ++ [last] |} = Ok "") ∧
  (performance_report {| _alltasks := earlier ++ [last] |} = Ok "" →
   Forall (λ t, perfvalues (check t) = []) last).
Proof.
  unfold performance_report, tasks. simpl. rewrite py_index_last.
  cbn [mbind result_bind]. split.
  - intros Hnone. by rewrite perf_tasks_no_values.
  - destruct (perf_tasks last _) as [st|] eqn:Hst; [|done].
    cbn [mbind result_bind].
    apply perf_tasks_inv in Hst as (lines & Hbody & Hlines).
    simpl in Hbody. rewrite Hbody.
    destruct lines as [|l lines]; [|done].
    intros _. apply Forall_forall. intros t Ht.
    destruct (perfvalues (check t)) as [|kr items] eqn:Hpv; [done|].
    destruct (Hlines t Ht) as [Hn _]; [by rewrite Hpv|].
    by apply elem_of_nil in Hn.
Qed.

Lemma perf_task_state t st st' p :
  perfvalues (check t) ≠ [] →
  current_partition (check t) = Some p →
  perf_task t st = Ok st' →
  previous_name st' = name (check t) ∧ previous_part st' = fullname p.
Proof.
  intros Hpv Hp. unfold perf_task. rewrite Hp.
  destruct (perfvalues (check t)) as [|kr items]; [done|].
  cbn [getattr mbind result_bind].
  match goal with
  | |- context [perf_items ?i ?b] => destruct (perf_items i b); [|done]
  end.
  cbn [mbind result_bind]. intros [= <-]. simpl.
  destruct (String.eqb_spec (name (check t)) (previous_name st)); simpl;
    match goal with
    | |- context [String.eqb (fullname p) ?x] =>
        destruct (String.eqb_spec (fullname p) x)
    end; simpl; done.
Qed.

(** X16.  Headers are written on change only, relative to the previous
    task with performance values: when such a task [t2] follows such a task
    [t1], [t2] adds the separator and its test name only if its name
    differs from that of [t1], the partition line only if its partition
    name differs from that of [t1] (so a different test on the same
    partition gets no partition line), then always the environment line,
    the [num_tasks] line and one line per performance variable. *)
Theorem perf_headers_on_change (t1 t2 : Task) (st st1 st2 : PerfState)
    (p1 p2 : Partition) :
  perfvalues (check t1) ≠ [] → perfvalues (check t2) ≠ [] →
  current_partition (check t1) = Some p1 →
  current_partition (check t2) = Some p2 →
  perf_task t1 st = Ok st1 →
  perf_task t2 st1 = Ok st2 →
  ∃ lines,
    report_body st2
    = report_body st1 ++
      (if decide (name (check t2) = name (check t1)) then []
       else [replicate_char 78 "-"; name (check t2)]) ++
      (if decide (fullname p2 = fullname p1) then []
       else ["- " +:+ fullname p2]) ++
      ["   - " +:+ str_opt (environ_str <$> current_environ (check t2));
       "      * num_tasks: " +:+ pretty (num_tasks (check t2))] ++
      lines ∧
    Forall2 (λ kr line, perf_line kr.1 kr.2 = Ok line)
            (perfvalues (check t2)) lines.
Proof.
  intros Hpv1 Hpv2 Hp1 Hp2 H1 H2.
  destruct (perf_task_state _ _ _ _ Hpv1 Hp1 H1) as [Hname Hpart].
  revert H2. unfold perf_task. rewrite Hp2, Hname, Hpart.
  destruct (perfvalues (check t2)) as [|kr items]; [done|].
  cbn [getattr mbind result_bind].
  match goal with
  | |- context [perf_items ?i ?b] =>
      destruct (perf_items i b) as [out|] eqn:Hitems; [|done]
  end.
  cbn [mbind result_bind]. intros [= <-]. simpl.
  apply perf_items_inv in Hitems as (lines & -> & Hlines).
  exists lines. split; [|done].
  destruct (String.eqb_spec (name (check t2)) (name (check t1)));
    destruct (decide (name (check t2) = name (check t1))); try done; simpl;
    rewrite ?Hpart;
    destruct (String.eqb_spec (fullname p2) (fullname p1));
    destruct (decide (fullname p2 = fullname p1)); try done; simpl;
    by rewrite <- ?app_assoc.
Qed.

Lemma performance_report_empty_iff_witness :
  performance_report
    {| _alltasks := [[perf_task_on "bw" (Some sample_partition)];
                     [passed_task "t1"; failed_task "t2" "sanity"]] |}
  = Ok "".
Proof.
  apply (proj1 (performance_report_empty_iff
                  [[perf_task_on "bw" (Some sample_partition)]]
                  [passed_task "t1"; failed_task "t2" "sanity"])).
  repeat constructor.
Defined.

Lemma perf_headers_on_change_witness :
  ∃ lines,
    Forall2 (λ kr line, perf_line kr.1 kr.2 = Ok line)
            (perfvalues (check (perf_task_on "lat" (Some sample_partition))))
            lines.
Proof.
  pose (st0 := {| report_body := []; previous_name := ""; previous_part := "" |}).
  pose (st1 := match perf_task (perf_task_on "bw" (Some sample_partition)) st0 with
               | Ok st => st
               | Raise _ => st0
               end).
  pose (st2 := match perf_task (perf_task_on "lat" (Some sample_partition)) st1 with
               | Ok st => st
               | Raise _ => st0
               end).
  destruct (perf_headers_on_change
              (perf_task_on "bw" (Some sample_partition))
              (perf_task_on "lat" (Some sample_partition))
              st0 st1 st2 sample_partition sample_partition)
    as (lines & _ & H).
  - discriminate.
  - discriminate.
  - reflexivity.
  - reflexivity.
  - vm_compute. reflexivity.
  - vm_compute. reflexivity.
  - exists lines. exact H.
Defined.

(** X17.  The last line of the block of a failed task in the failure
    report: "Sanity check failure" or "Performance check failure" when the
    task has exception information and failed in that stage, and
    "Unknown error." in every other case, which includes every failed task
    without exception information, whatever its stage, because its record
    has no failing phase. *)
Theorem failure_report_footer (format_exception : ExcInfo → result string)
    (run_no : nat) (t : Task) (r : Entry) :
  json_entry format_exception run_no t = Ok r →
  failed t = true →
  last (failure_report_entry (Z.of_nat run_no) r)
  = Some (match exc_info t with
          | Some _ =>
              if String.eqb (failed_stage t) "sanity"
              then "Sanity check failure"
              else if String.eqb (failed_stage t) "performance"
                   then "Performance check failure"
                   else "Unknown error."
          | None => "Unknown error."
          end).
Proof.
  intros Hr Hfailed.
  pose proof (json_entry_outcome _ _ _ _ Hr) as Hout.
  pose proof (json_entry_run_no _ _ _ _ Hr) as Hno.
  rewrite Hfailed in Hout. destruct Hout as (Hres & _ & Hinfo).
  unfold failure_report_entry. rewrite Hres, Hno, Z.eqb_refl. simpl.
  destruct (exc_info t).
  - destruct Hinfo as (reason & _ & _ & -> & _). done.
  - destruct Hinfo as (_ & -> & _). done.
Qed.

Lemma failure_report_footer_witness :
  ∃ r, json_entry strict_format 0 (bare_failed_task "t1") = Ok r ∧
       last (failure_report_entry 0 r) = Some "Unknown error.".
Proof.
  eexists. split; [reflexivity|].
  apply (failure_report_footer strict_format 0 (bare_failed_task "t1")).
  - reflexivity.
  - reflexivity.
Defined.
